(** * Tile addressing, storage and retrieval of the contour-tile pipeline

    A shallow embedding of the Python sources

    - [scripts/setup_contour_nginx.py]  ([flip_y], [extract_mbtiles_standard],
      [create_tilejson], the guard of [main]),
    - [scripts/nginx_test_server.py]    ([do_GET], [serve_tile], [serve_file],
      [do_OPTIONS]),
    - [tile_gen_lib/contour_gen.py] and [scripts/test_contour_standalone.py]
      ([lat_lon_to_tile], [get_tiles_for_bbox], [download_terrain_tiles],
      the [--intervals] option),

    followed by the properties of the tile addressing and storage layer.

    Conventions of the embedding.
    - Python [int] is [Z]; [2 ** zoom] is [2 ^ zoom], which is the Python value
      for [0 <= zoom] (for a negative exponent Python leaves the integers).
    - Python [float] is idealised as a real number ([R]): rounding to binary64
      and overflow are not part of the model.
    - [str] is [string], [bytes] is [list byte], a [dict] with string keys is
      a [gmap string _], a [pathlib.Path] is the list of its parts.
    - A function that can raise returns a [result]; a function that touches
      the disk takes the file system and returns the new one. *)

From Stdlib Require Import ZArith Reals Lra Lia Ascii.
From stdpp Require Import base option list gmap strings pretty.

Local Open Scope Z_scope.

(* ===================================================================== *)
(** * Part I: the embedding                                               *)
(* ===================================================================== *)

(** ** Exceptions *)

Inductive exn : Set :=
  | IndexError
  | ValueError
  | AttributeError
  | FileNotFoundError
  | FileExistsError
  | NotADirectoryError
  | IsADirectoryError.

Inductive result (A : Type) : Type :=
  | Ok (a : A)
  | Raise (e : exn).

Arguments Ok {A} a.
Arguments Raise {A} e.

(** Sequencing: [x ← m; k] runs [k] on the value of [m] and propagates an
    exception of [m]. *)
Global Instance result_bind : MBind result := λ A B k m,
  match m with
  | Ok a => k a
  | Raise e => Raise e
  end.

Global Instance result_ret : MRet result := λ A a, Ok a.

Global Instance result_fmap : FMap result := λ A B f m,
  match m with
  | Ok a => Ok (f a)
  | Raise e => Raise e
  end.

(** [for x in xs: body] over a state that the body may abandon by raising. *)
Fixpoint for_each {A S : Type} (body : S → A → result S) (xs : list A) (s : S)
  : result S :=
  match xs with
  | [] => Ok s
  | x :: xs' => s' ← body s x; for_each body xs' s'
  end.

(** ** Python strings and sequences *)

(** [needle in s] *)
Fixpoint str_in (needle s : string) : bool :=
  String.prefix needle s ||
  match s with
  | "" => false
  | String _ s' => str_in needle s'
  end.

(** [s.startswith(p)] and [s.endswith(suffix)] *)
Definition startswith (s p : string) : bool := String.prefix p s.

Fixpoint endswith (s suffix : string) : bool :=
  bool_decide (s = suffix) ||
  match s with
  | "" => false
  | String _ s' => endswith s' suffix
  end.

(** [s.rstrip(ch)] for a single character [ch] *)
Fixpoint rstrip (ch : ascii) (s : string) : string :=
  match s with
  | "" => ""
  | String c s' =>
      let r := rstrip ch s' in
      if decide (c = ch ∧ r = "") then "" else String c r
  end.

(** [s.split(sep)] for a single character [sep]: the pieces between the
    separators, empty pieces included; never the empty list. *)
Fixpoint split (sep : ascii) (s : string) : list string :=
  match s with
  | "" => [""]
  | String c s' =>
      if decide (c = sep) then "" :: split sep s'
      else match split sep s' with
           | piece :: pieces => String c piece :: pieces
           | [] => [String c ""]
           end
  end.

(** [s[:-n]] *)
Definition drop_last (n : nat) (s : string) : string :=
  String.substring 0 (String.length s - n) s.

(** [xs[-k]] for [k >= 1] *)
Definition index_from_end {A : Type} (xs : list A) (k : nat) : result A :=
  match rev xs !! (k - 1)%nat with
  | Some a => Ok a
  | None => Raise IndexError
  end.

(** ** The builtins [int] and [float] on strings *)

(** ASCII white space, as [str.strip] and the number parsers see it. *)
Definition is_space (c : ascii) : bool :=
  let n := nat_of_ascii c in
  ((9 <=? n) && (n <=? 13) || (28 <=? n) && (n <=? 32))%nat.

Definition digit_of (c : ascii) : option Z :=
  let n := nat_of_ascii c in
  if ((48 <=? n) && (n <=? 57))%nat then Some (Z.of_nat n - 48) else None.

Definition is_digit (c : ascii) : bool := bool_decide (is_Some (digit_of c)).

Fixpoint lstrip_space (s : string) : string :=
  match s with
  | String c s' => if is_space c then lstrip_space s' else s
  | "" => ""
  end.

Fixpoint rstrip_space (s : string) : string :=
  match s with
  | "" => ""
  | String c s' =>
      let r := rstrip_space s' in
      if is_space c && bool_decide (r = "") then "" else String c r
  end.

(** [s.strip()] *)
Definition strip (s : string) : string := rstrip_space (lstrip_space s).

(** Underscores in a numeric literal: each one must stand between two
    digits; they are then removed.  [prev] is the character before [s]. *)
Fixpoint remove_underscores (prev : ascii) (s : string) : option string :=
  match s with
  | "" => if decide (prev = "_"%char) then None else Some ""
  | String c s' =>
      if decide (c = "_"%char) then
        if is_digit prev then remove_underscores c s' else None
      else if bool_decide (prev = "_"%char) && negb (is_digit c) then None
      else String c <$> remove_underscores c s'
  end.

(** A leading sign: whether it is a minus, and what follows it. *)
Definition take_sign (s : string) : bool * string :=
  match s with
  | String "-" s' => (true, s')
  | String "+" s' => (false, s')
  | _ => (false, s)
  end.

(** The longest run of leading digits and what follows it. *)
Fixpoint span_digits (s : string) : list Z * string :=
  match s with
  | "" => ([], "")
  | String c s' =>
      match digit_of c with
      | Some d => let '(ds, rest) := span_digits s' in (d :: ds, rest)
      | None => ([], s)
      end
  end.

Definition decimal_value (ds : list Z) : Z := foldl (λ acc d, 10 * acc + d) 0 ds.

Definition signed (negative : bool) (z : Z) : Z := if negative then - z else z.

(** A value that [dict.get] may hand to [int]: a string of the dictionary
    or the integer default. *)
Inductive pyval : Type :=
  | PStr (s : string)
  | PInt (z : Z).

(** [int(s)] in base ten. *)
Definition int_of_str (s : string) : result Z :=
  match remove_underscores "000"%char (strip s) with
  | None => Raise ValueError
  | Some t =>
      let '(negative, t') := take_sign t in
      match span_digits t' with
      | (d :: ds, "") => Ok (signed negative (decimal_value (d :: ds)))
      | _ => Raise ValueError
      end
  end.

(** [int(v)] *)
Definition py_int (v : pyval) : result Z :=
  match v with
  | PInt z => Ok z
  | PStr s => int_of_str s
  end.

(** A Python [float] read from text: the decimal number [m * 10^e] it
    denotes, an infinity or a NaN.  Rounding to binary64 and overflow are
    not modelled. *)
Inductive pyfloat : Type :=
  | Finite (m e : Z)
  | Infinity (negative : bool)
  | NaN.

Definition lower_char (c : ascii) : ascii :=
  let n := nat_of_ascii c in
  if ((65 <=? n) && (n <=? 90))%nat then ascii_of_nat (n + 32) else c.

Fixpoint lower (s : string) : string :=
  match s with
  | "" => ""
  | String c s' => String (lower_char c) (lower s')
  end.

(** The exponent part of a decimal literal, possibly absent. *)
Definition exponent_of (s : string) : option Z :=
  match s with
  | "" => Some 0
  | String c s' =>
      if decide (lower_char c = "e"%char) then
        let '(negative, t) := take_sign s' in
        match span_digits t with
        | (d :: ds, "") => Some (signed negative (decimal_value (d :: ds)))
        | _ => None
        end
      else None
  end.

(** [float(s)] *)
Definition py_float (s : string) : result pyfloat :=
  match remove_underscores "000"%char (strip s) with
  | None => Raise ValueError
  | Some t =>
      let '(negative, t') := take_sign t in
      let word := lower t' in
      if decide (word = "inf" ∨ word = "infinity") then Ok (Infinity negative)
      else if decide (word = "nan") then Ok NaN
      else
        let '(int_digits, after_int) := span_digits t' in
        let '(frac_digits, after_frac) :=
          match after_int with
          | String "." r => span_digits r
          | _ => ([], after_int)
          end in
        match int_digits ++ frac_digits, exponent_of after_frac with
        | _ :: _, Some e =>
            Ok (Finite (signed negative (decimal_value (int_digits ++ frac_digits)))
                       (e - Z.of_nat (length frac_digits)))
        | _, _ => Raise ValueError
        end
  end.

(** The real number a finite [float] stands for. *)
Definition float_value (f : pyfloat) : option R :=
  match f with
  | Finite m e => Some (IZR m * powerRZ 10 e)%R
  | _ => None
  end.

(** ** Paths and the file system *)

(** Python [bytes]. *)
Definition bytes : Type := list Byte.byte.

(** A [pathlib.Path] as the list of its parts, outermost first; an absolute
    path starts with its root part. *)
Abbreviation path := (list string).

(** The root that an absolute string carries: exactly two leading slashes
    are kept as they are, any other number of them is one slash. *)
Definition root_of (s : string) : option string :=
  if startswith s "//" && negb (startswith s "///") then Some "//"
  else if startswith s "/" then Some "/"
  else None.

(** [p / s]: the parts of [s] are appended, an empty part and a ["."] part
    are dropped, [".."] is kept; an absolute [s] replaces [p]. *)
Definition path_join (p : path) (s : string) : path :=
  let parts := filter (λ c, c ≠ "" ∧ c ≠ ".") (split "/" s) in
  match root_of s with
  | Some root => root :: parts
  | None => p ++ parts
  end.

Infix "//" := path_join (at level 40, left associativity).

(** [p.parent] *)
Definition parent (p : path) : path := removelast p.

Inductive node : Type :=
  | File (data : bytes)
  | Dir.

(** The disk: the entry at each path.  In the tree of a disk the parent of
    every entry is a directory entry; the operations below walk down from
    the start directory, so an entry that has no such parent is out of their
    reach. *)

(** Resolving the parts [rest] below the directory [base]: the entry
    reached, or the error of the first part that is missing or cannot be
    entered. *)
Fixpoint resolve (fs : gmap path node) (base : path) (rest : list string)
  : result node :=
  match rest with
  | [] => Ok Dir
  | c :: rest' =>
      match fs !! (base ++ [c]), rest' with
      | None, _ => Raise FileNotFoundError
      | Some n, [] => Ok n
      | Some Dir, _ => resolve fs (base ++ [c]) rest'
      | Some (File _), _ => Raise NotADirectoryError
      end
  end.

(** [os.stat(p)]; the empty path is the start directory. *)
Definition stat (fs : gmap path node) (p : path) : result node :=
  resolve fs [] p.

(** [p.exists()] *)
Definition exists_ (fs : gmap path node) (p : path) : bool :=
  match stat fs p with
  | Ok _ => true
  | Raise _ => false
  end.

(** [with open(p, 'rb') as f: data = f.read()] *)
Definition read_bytes (fs : gmap path node) (p : path) : result bytes :=
  n ← stat fs p;
  match n with
  | File data => Ok data
  | Dir => Raise IsADirectoryError
  end.

(** [p.mkdir(parents=True, exist_ok=True)]: walking down from the start
    directory, a missing part is created, an existing directory is kept and
    a regular file in the way is an error. *)
Fixpoint mkdir_from (fs : gmap path node) (base : path) (rest : list string)
  : result (gmap path node) :=
  match rest with
  | [] => Ok fs
  | c :: rest' =>
      let p := base ++ [c] in
      match fs !! p with
      | Some Dir => mkdir_from fs p rest'
      | Some (File _) =>
          Raise (match rest' with [] => FileExistsError | _ => NotADirectoryError end)
      | None => mkdir_from (<[p := Dir]> fs) p rest'
      end
  end.

Definition mkdir_parents (fs : gmap path node) (p : path)
  : result (gmap path node) :=
  mkdir_from fs [] p.

(** [with open(p, 'wb') as f: f.write(data)]: the parent must be a directory
    and [p] must not be one; an existing file is truncated and rewritten. *)
Definition write_bytes (fs : gmap path node) (p : path) (data : bytes)
  : result (gmap path node) :=
  parent_node ← stat fs (parent p);
  match parent_node with
  | File _ => Raise NotADirectoryError
  | Dir =>
      match stat fs p with
      | Ok Dir => Raise IsADirectoryError
      | _ => Ok (<[p := File data]> fs)
      end
  end.

(** ** [setup_contour_nginx.py] *)

(** Convert TMS y-coordinate to XYZ (slippy map) format. *)
Definition flip_y (zoom y : Z) : Z := (2 ^ zoom - 1) - y.

(** A row of [SELECT zoom_level, tile_column, tile_row, tile_data FROM tiles]. *)
Record tile_row : Type := TileRow {
  zoom_level : Z;
  tile_column : Z;
  tile_row_bottom : Z;
  tile_data : bytes
}.

(** The container: the rows of its [tiles] table in cursor order and the
    rows of its [metadata] table. *)
Record mbtiles : Type := Mbtiles {
  tiles : list tile_row;
  metadata_rows : list (string * string)
}.

(** [dict(pairs)]: a later pair replaces an earlier one with the same key. *)
Definition dict_of_pairs (pairs : list (string * string)) : gmap string string :=
  foldl (λ d kv, <[kv.1 := kv.2]> d) ∅ pairs.

(** The body of the extraction loop for one row. *)
Definition extract_row (tiles_dir : path) (fs : gmap path node) (row : tile_row)
  : result (gmap path node) :=
  let z := zoom_level row in
  let x := tile_column row in
  let y := flip_y z (tile_row_bottom row) in
  let tile_path := tiles_dir // pretty z // pretty x // (pretty y +:+ ".pbf") in
  fs ← mkdir_parents fs (parent tile_path);
  write_bytes fs tile_path (tile_data row).

Section Extraction.

(** [json.dump(metadata, f, indent=2)]: the text written for a metadata
    dictionary; its layout plays no role below. *)
Variable json_dump : gmap string string → bytes.

Definition extract_mbtiles_standard (db : mbtiles) (output_dir : path)
    (fs : gmap path node) : result (gmap path node * gmap string string) :=
  let tiles_dir := output_dir // "tiles" in
  fs ← mkdir_parents fs tiles_dir;
  let metadata := dict_of_pairs (metadata_rows db) in
  fs ← for_each (extract_row tiles_dir) (tiles db) fs;
  let metadata_path := output_dir // "metadata.json" in
  fs ← write_bytes fs metadata_path (json_dump metadata);
  Ok (fs, metadata).

End Extraction.

(** A JSON document as [json.loads] returns it; the members of a dictionary
    are its items, with distinct keys. *)
#[warnings="-register-all"] Inductive json : Type :=
  | JNull
  | JBool (b : bool)
  | JInt (z : Z)
  | JFloat (f : pyfloat)
  | JStr (s : string)
  | JArr (items : list json)
  | JObj (members : list (string * json)).

(** [j.get(key, default)]: only a dictionary has the method. *)
Definition json_get (j : json) (key : string) (default : json) : result json :=
  match j with
  | JObj members =>
      Ok (match list_find (λ kv, kv.1 = key) members with
          | Some (_, (_, v)) => v
          | None => default
          end)
  | _ => Raise AttributeError
  end.

(** The dictionary [tilejson] built by [create_tilejson]. *)
Record tilejson : Type := TileJSON {
  tj_tilejson : string;
  tj_name : string;
  tj_description : string;
  tj_version : string;
  tj_attribution : string;
  tj_scheme : string;
  tj_tiles : list string;
  tj_minzoom : Z;
  tj_maxzoom : Z;
  tj_bounds : list pyfloat;
  tj_center : list pyfloat;
  tj_vector_layers : json
}.

Section TileJSON.

(** [json.loads]: [None] stands for raising [json.JSONDecodeError]. *)
Variable json_loads : string → option json.

(** [json.dump(tilejson, f, indent=2)]: the text written for a descriptor. *)
Variable tilejson_dump : tilejson → bytes.

(** Parse vector_layers from metadata if present. *)
Definition vector_layers_of (metadata : gmap string string) : result json :=
  match metadata !! "json" with
  | Some text =>
      match json_loads text with
      | Some json_meta => json_get json_meta "vector_layers" (JArr [])
      | None => Ok (JArr [])
      end
  | None => Ok (JArr [])
  end.

(** The descriptor: the local [tilejson] of [create_tilejson]. *)
Definition build_tilejson (metadata : gmap string string) (base_url : string)
  : result tilejson :=
  vector_layers ← vector_layers_of metadata;
  minzoom ← py_int (default (PInt 0) (PStr <$> metadata !! "minzoom"));
  maxzoom ← py_int (default (PInt 14) (PStr <$> metadata !! "maxzoom"));
  bounds ← mapM py_float (split "," (default "-180,-85,180,85" (metadata !! "bounds")));
  center ← mapM py_float (split "," (default "0,0,2" (metadata !! "center")));
  Ok {| tj_tilejson := "3.0.0";
        tj_name := default "Contour Tiles" (metadata !! "name");
        tj_description := default "Elevation contour lines" (metadata !! "description");
        tj_version := default "1.0.0" (metadata !! "version");
        tj_attribution := default "" (metadata !! "attribution");
        tj_scheme := "xyz";
        tj_tiles := [base_url +:+ "/{z}/{x}/{y}.pbf"];
        tj_minzoom := minzoom;
        tj_maxzoom := maxzoom;
        tj_bounds := bounds;
        tj_center := center;
        tj_vector_layers := vector_layers |}.

(** Create a TileJSON file for the contour tiles. *)
Definition create_tilejson (metadata : gmap string string) (base_url : string)
    (output_path : path) (fs : gmap path node) : result (gmap path node) :=
  tilejson ← build_tilejson metadata base_url;
  write_bytes fs output_path (tilejson_dump tilejson).

End TileJSON.

(** ** [nginx_test_server.py] *)

(** What a handler sends back.  [Reply] is [send_response] followed by the
    [send_header] calls in order, [end_headers] and the body written to
    [wfile]; [SendError] is [self.send_error(code, message)]. *)
Inductive response : Type :=
  | Reply (status : Z) (headers : list (string * string)) (body : bytes)
  | SendError (code : Z) (message : string).

Section Handler.

(** The class attributes [tiles_dir] and [static_dir] and the disk. *)
Variable tiles_dir static_dir : path.
Variable fs : gmap path node.

(** Serve a tile from the file system. *)
Definition serve_tile (z x y : string) : result response :=
  let tile_path := tiles_dir // z // x // (y +:+ ".pbf") in
  if exists_ fs tile_path then
    data ← read_bytes fs tile_path;
    Ok (Reply 200
          [("Content-Type", "application/vnd.mapbox-vector-tile");
           ("Content-Encoding", "gzip");
           ("Access-Control-Allow-Origin", "*");
           ("Cache-Control", "public, max-age=31536000");
           ("X-OFM-Debug", "tile " +:+ z +:+ "/" +:+ x +:+ "/" +:+ y);
           ("Content-Length", pretty (length data))]
          data)
  else
    (* Return empty tile (like nginx @empty_tile) *)
    Ok (Reply 200
          [("Content-Type", "application/vnd.mapbox-vector-tile");
           ("Access-Control-Allow-Origin", "*");
           ("Cache-Control", "public, max-age=31536000");
           ("X-OFM-Debug", "empty tile");
           ("Content-Length", "0")]
          []).

(** Serve a static file from the static directory. *)
Definition serve_file (filename content_type : string) : result response :=
  let file_path := static_dir // filename in
  if exists_ fs file_path then
    data ← read_bytes fs file_path;
    Ok (Reply 200
          [("Content-Type", content_type);
           ("Access-Control-Allow-Origin", "*");
           ("Content-Length", pretty (length data))]
          data)
  else
    Ok (SendError 404 (filename +:+ " not found")).

(** The [try] block of [do_GET]: [Some] is its [return], [None] is falling
    out of it. *)
Definition tile_request (parts : list string) : result (option response) :=
  y_pbf ← index_from_end parts 1;
  x ← index_from_end parts 2;
  z ← index_from_end parts 3;
  if endswith y_pbf ".pbf" then
    let y := drop_last 4 y_pbf in
    r ← serve_tile z x y;
    Ok (Some r)
  else Ok None.

(** [do_GET], with [path = urlparse(self.path).path]. *)
Definition do_GET (path : string) : result response :=
  (* Serve tile requests: /tiles/{z}/{x}/{y}.pbf or /contours/{z}/{x}/{y}.pbf *)
  if str_in "/tiles/" path || str_in "/contours/" path then
    let parts := split "/" (rstrip "/" path) in
    match tile_request parts with
    | Ok (Some r) => Ok r
    | Ok None | Raise IndexError | Raise ValueError =>
        Ok (SendError 404 "Tile not found")
    | Raise e => Raise e
    end
  (* Serve viewer *)
  else if bool_decide (path = "/") || bool_decide (path = "/index.html")
          || bool_decide (path = "/viewer.html") then
    serve_file "viewer.html" "text/html"
  (* Serve tilejson *)
  else if bool_decide (path = "/tilejson.json") || bool_decide (path = "/contours") then
    serve_file "tilejson.json" "application/json"
  (* Default 404 *)
  else Ok (SendError 404 "Not Found").

End Handler.



(** ** [contour_gen.py] *)

(** [int(v)] for a float [v]: truncation toward zero. *)
Definition int_of_float (v : R) : Z :=
  if Rle_dec 0 v then Int_part v else - Int_part (- v).

(** [math.radians] *)
Definition radians (x : R) : R := (x * (PI / 180))%R.

(** [range(a, b)] *)
Definition py_range (a b : Z) : list Z :=
  (λ i, a + Z.of_nat i) <$> seq 0 (Z.to_nat (b - a)).

(** Convert lat/lon to tile coordinates at given zoom level. *)
Definition lat_lon_to_tile (lat lon : R) (zoom : Z) : Z * Z :=
  let n := 2 ^ zoom in
  let x := int_of_float ((lon + 180) / 360 * IZR n) in
  let lat_rad := radians lat in
  let y := int_of_float ((1 - arcsinh (tan lat_rad) / PI) / 2 * IZR n) in
  (x, y).

(** The index ranges of [get_tiles_for_bbox] after its "Ensure min <= max"
    step: [((min_x, max_x), (min_y, max_y))]. *)
Definition tile_range (bbox : R * R * R * R) (zoom : Z) : (Z * Z) * (Z * Z) :=
  let '(west, south, east, north) := bbox in
  let '(min_x, _) := lat_lon_to_tile north west zoom in
  let '(max_x, _) := lat_lon_to_tile south east zoom in
  let '(_, min_y) := lat_lon_to_tile north west zoom in
  let '(_, max_y) := lat_lon_to_tile south east zoom in
  (* Ensure min <= max *)
  let '(min_x, max_x) := if min_x >? max_x then (max_x, min_x) else (min_x, max_x) in
  let '(min_y, max_y) := if min_y >? max_y then (max_y, min_y) else (min_y, max_y) in
  ((min_x, max_x), (min_y, max_y)).

(** Get all tile coordinates (z, x, y) that cover a bounding box. *)
Definition get_tiles_for_bbox (bbox : R * R * R * R) (zoom : Z) : list (Z * Z * Z) :=
  let '((min_x, max_x), (min_y, max_y)) := tile_range bbox zoom in
  foldl (λ tiles x,
           foldl (λ tiles y, tiles ++ [(zoom, x, y)])
                 tiles (py_range min_y (max_y + 1)))
        [] (py_range min_x (max_x + 1)).

(** ** [test_contour_standalone.py]: its own copies of the two functions *)

Module Standalone.

Definition lat_lon_to_tile (lat lon : R) (zoom : Z) : Z * Z :=
  let n := 2 ^ zoom in
  let x := int_of_float ((lon + 180) / 360 * IZR n) in
  let lat_rad := radians lat in
  let y := int_of_float ((1 - arcsinh (tan lat_rad) / PI) / 2 * IZR n) in
  (x, y).

Definition get_tiles_for_bbox (bbox : R * R * R * R) (zoom : Z) : list (Z * Z * Z) :=
  let '(west, south, east, north) := bbox in
  let '(min_x, _) := lat_lon_to_tile north west zoom in
  let '(max_x, _) := lat_lon_to_tile south east zoom in
  let '(_, min_y) := lat_lon_to_tile north west zoom in
  let '(_, max_y) := lat_lon_to_tile south east zoom in
  let '(min_x, max_x) := if min_x >? max_x then (max_x, min_x) else (min_x, max_x) in
  let '(min_y, max_y) := if min_y >? max_y then (max_y, min_y) else (min_y, max_y) in
  foldl (λ tiles x,
           foldl (λ tiles y, tiles ++ [(zoom, x, y)])
                 tiles (py_range min_y (max_y + 1)))
        [] (py_range min_x (max_x + 1)).

End Standalone.

(** ** Observations used in the statements *)

(** The content of a regular file. *)
Definition file_data (n : node) : option bytes :=
  match n with
  | File d => Some d
  | Dir => None
  end.

(** The regular files below directory [d], each with its content. *)
Definition files_under (d : path) (fs : gmap path node) : gmap path bytes :=
  omap file_data (filter (λ kv, d `prefix_of` kv.1) fs).

(** The address of a container row. *)
Definition address (r : tile_row) : Z * Z * Z :=
  (zoom_level r, tile_column r, tile_row_bottom r).

(** Where the row is to be served from: [tiles/z/x/(2^z - 1 - row).pbf]
    below the output directory. *)
Definition served_path (output_dir : path) (r : tile_row) : path :=
  output_dir ++
    ["tiles"; pretty (zoom_level r); pretty (tile_column r);
     pretty (2 ^ zoom_level r - 1 - tile_row_bottom r) +:+ ".pbf"].

(** The destination as [main] hands it to the extraction: the output
    directory exists and nothing lies in it. *)
Definition fresh_destination (fs : gmap path node) (output_dir : path) : Prop :=
  stat fs output_dir = Ok Dir ∧
  (∀ p, output_dir `prefix_of` p → p ≠ output_dir → fs !! p = None).

(** A small served tree for the examples: one stored tile, [5/10/28.pbf]. *)
Definition example_tree : gmap path node :=
  list_to_map
    [(["srv"], Dir); (["srv"; "tiles"], Dir); (["srv"; "tiles"; "5"], Dir);
     (["srv"; "tiles"; "5"; "10"], Dir);
     (["srv"; "tiles"; "5"; "10"; "28.pbf"], File [Byte.x1f; Byte.x8b])].



(** The invariant of the extraction loop on the tree below the tiles
    directory: the tiles directory exists, directories lie at most two
    levels below it and regular files exactly three levels below it. *)
Definition tiles_shape (tiles_dir : path) (fs : gmap path node) : Prop :=
  (∀ q, q `prefix_of` tiles_dir → q ≠ [] → fs !! q = Some Dir) ∧
  (∀ p n, fs !! p = Some n → tiles_dir `prefix_of` p →
     match n with
     | Dir => (length p ≤ length tiles_dir + 2)%nat
     | File _ => length p = (length tiles_dir + 3)%nat
     end).

(** ** Further functions of the sources *)



(** *** More of the file system *)

(** [p.iterdir()]: the entries of the directory [p], in no particular
    order. *)
Definition iterdir (fs : gmap path node) (p : path) : result (list path) :=
  n ← stat fs p;
  match n with
  | File _ => Raise NotADirectoryError
  | Dir => Ok (filter (λ q, q ≠ [] ∧ parent q = p) (map_to_list fs).*1)
  end.

(** [p.unlink()] *)
Definition unlink (fs : gmap path node) (p : path) : result (gmap path node) :=
  n ← stat fs p;
  match n with
  | File _ => Ok (delete p fs)
  | Dir => Raise IsADirectoryError
  end.

(** What [main] can raise besides the exceptions above: [SystemExit] from
    [sys.exit(message)], and an [OSError] of no more specific class. *)
Inductive raised : Type :=
  | Exn (e : exn)
  | OSError
  | SystemExit (message : string).

Inductive outcome (A : Type) : Type :=
  | Done (a : A)
  | Raised (r : raised).

Arguments Done {A} a.
Arguments Raised {A} r.

Global Instance outcome_bind : MBind outcome := λ A B k m,
  match m with
  | Done a => k a
  | Raised r => Raised r
  end.

Definition lift {A : Type} (m : result A) : outcome A :=
  match m with
  | Ok a => Done a
  | Raise e => Raised (Exn e)
  end.

(** [shutil.rmtree(p)]: the directory [p] goes with everything below it; the
    start directory itself cannot be removed, which is reported after its
    content is gone. *)
Definition rmtree (fs : gmap path node) (p : path) : outcome (gmap path node) :=
  n ← lift (stat fs p);
  match n with
  | File _ => Raised (Exn NotADirectoryError)
  | Dir =>
      if decide (p = []) then Raised OSError
      else Done (filter (λ kv, ¬ p `prefix_of` kv.1) fs)
  end.

(** [sep.join(l)] and [str(p)] *)
Definition str_join (sep : string) (l : list string) : string :=
  match l with
  | [] => ""
  | s :: l' => foldl (λ acc t, acc +:+ sep +:+ t) s l'
  end.

Definition str_of_path (p : path) : string :=
  match p with
  | [] => "."
  | c :: rest =>
      if decide (c = "/" ∨ c = "//") then c +:+ str_join "/" rest
      else str_join "/" p
  end.

(** *** [main] of [setup_contour_nginx.py], up to the extraction *)

(** From the check of the container file to [output_dir.mkdir]: what is
    returned is the disk that [extract_mbtiles_standard] is called on. *)
Definition prepare_destination (mbtiles_path output_dir : path) (force : bool)
    (fs : gmap path node) : outcome (gmap path node) :=
  if negb (exists_ fs mbtiles_path) then
    Raised (SystemExit ("Error: mbtiles file not found: " +:+ str_of_path mbtiles_path))
  else
    not_empty ← (if exists_ fs output_dir
                 then entries ← lift (iterdir fs output_dir);
                      Done (bool_decide (entries ≠ []))
                 else Done false);
    fs ← (if not_empty : bool then
            if force then rmtree fs output_dir
            else Raised (SystemExit
                   ("Error: output directory not empty: " +:+ str_of_path output_dir
                    +:+ String (ascii_of_nat 10) "Use --force to overwrite"))
          else Done fs);
    lift (mkdir_parents fs output_dir).

(** *** [download_terrain_tiles] *)

Definition AWS_TERRAIN_BUCKET : string :=
  "https://s3.amazonaws.com/elevation-tiles-prod".

(** The name under which the terrain tile [(z, x, y)] is kept, and where it
    is fetched from. *)
Definition terrain_file_name (t : Z * Z * Z) : string :=
  let '(z, x, y) := t in
  pretty z +:+ "_" +:+ pretty x +:+ "_" +:+ pretty y +:+ ".tif".

Definition terrain_url (t : Z * Z * Z) : string :=
  let '(z, x, y) := t in
  AWS_TERRAIN_BUCKET +:+ "/geotiff/" +:+ pretty z +:+ "/" +:+ pretty x +:+ "/"
    +:+ pretty y +:+ ".tif".

Section Download.

(** [subprocess.run(['curl', '-f', '-s', '-o', str(output_file), url],
    check=True, ...)]: whether the exit status was zero (otherwise
    [CalledProcessError] is raised), and the disk afterwards. *)
Variable curl : string → path → gmap path node → bool * gmap path node.

(** The body of the download loop for one tile; the state is the disk and
    the list [downloaded]. *)
Definition download_tile (tiles_dir : path)
    (st : gmap path node * list path) (t : Z * Z * Z)
  : result (gmap path node * list path) :=
  let '(fs, downloaded) := st in
  let url := terrain_url t in
  let output_file := tiles_dir // terrain_file_name t in
  if exists_ fs output_file then Ok (fs, downloaded ++ [output_file])
  else
    let '(succeeded, fs) := curl url output_file fs in
    if succeeded : bool then Ok (fs, downloaded ++ [output_file])
    else if exists_ fs output_file then
      fs ← unlink fs output_file; Ok (fs, downloaded)
    else Ok (fs, downloaded).

(** Download GeoTIFF terrain tiles from AWS for the given bounding box. *)
Definition download_terrain_tiles (bbox : R * R * R * R) (output_dir : path)
    (zoom : Z) (fs : gmap path node) : result (gmap path node * list path) :=
  let tiles_dir := output_dir // "terrain_tiles" in
  fs ← mkdir_parents fs tiles_dir;
  let tiles := get_tiles_for_bbox bbox zoom in
  for_each (download_tile tiles_dir) tiles (fs, []).

End Download.

(** *** [main] of [test_contour_standalone.py]: the [--intervals] option *)


(** *** A further observation *)

(** The disk as a tree: every entry has a name, and the entries above it are
    directories. *)
Definition is_tree (fs : gmap path node) : Prop :=
  ∀ p n, fs !! p = Some n →
    p ≠ [] ∧ ∀ q, q `prefix_of` p → q ≠ [] → q ≠ p → fs !! q = Some Dir.

(* ===================================================================== *)
(** * Part II: properties                                                 *)
(* ===================================================================== *)

(** ** Sequencing *)

Lemma bind_Ok {A B} (m : result A) (k : A → result B) (b : B) :
  m ≫= k = Ok b → ∃ a, m = Ok a ∧ k a = Ok b.
Proof. destruct m as [a|e]; [by exists a|done]. Qed.

(** ** The row-origin flip *)

(** C1: for every zoom [z >= 0] and every row [r] with [0 <= r < 2^z],
    flipping the row origin twice gives [r] back: [flip_y] is self-inverse. *)
Theorem flip_y_involutive (z r : Z) :
  0 ≤ z → 0 ≤ r < 2 ^ z → flip_y z (flip_y z r) = r.
Proof. intros _ _. unfold flip_y. lia. Qed.

(** The flip stays among the rows [0 .. 2^z - 1] of its zoom level. *)
Lemma flip_y_range (z r : Z) : 0 ≤ r < 2 ^ z → 0 ≤ flip_y z r < 2 ^ z.
Proof. unfold flip_y. lia. Qed.

Example flip_y_scenario : flip_y 5 3 = 28.
Proof. reflexivity. Qed.

(** Without the range the flip leaves the rows of the zoom level, and is
    still its own inverse. *)
Example flip_y_out_of_range : flip_y 2 7 = -4 ∧ flip_y 2 (-4) = 7.
Proof. split; reflexivity. Qed.

Lemma flip_y_involutive_witness :
  0 ≤ 5 ∧ 0 ≤ 3 < 2 ^ 5 ∧ flip_y 5 (flip_y 5 3) = 3.
Proof.
  split; [lia|]. split; [cbn; lia|].
  apply flip_y_involutive; [lia|cbn; lia].
Defined.

(** ** Decimal rendering of integers *)

Lemma pretty_N_char_not_dot (d : N) : pretty_N_char d ≠ "."%char.
Proof. unfold pretty_N_char. by repeat case_match. Qed.

Lemma pretty_N_go_head (x : N) (s : string) :
  (0 < x)%N →
  ∃ d rest, pretty_N_go x s = String (pretty_N_char d) rest.
Proof.
  revert s. induction (N.lt_wf_0 x) as [x _ IH]; intros s Hx.
  rewrite pretty_N_go_step by done.
  destruct (decide (x `div` 10 = 0)%N) as [->|Hne].
  - rewrite pretty_N_go_0. eauto.
  - apply IH; [by apply N.div_lt|by apply N.neq_0_lt_0].
Qed.

Lemma pretty_N_head (x : N) :
  ∃ c rest, pretty x = String c rest ∧ c ≠ "."%char.
Proof.
  unfold pretty, pretty_N. case_decide as Hx.
  - by exists "0"%char, "".
  - destruct (pretty_N_go_head x "") as (d & rest & ->); [lia|].
    eauto using pretty_N_char_not_dot.
Qed.

Lemma pretty_Z_head (z : Z) :
  ∃ c rest, pretty z = String c rest ∧ c ≠ "."%char.
Proof.
  destruct z as [|q|q]; unfold pretty, pretty_Z.
  - by exists "0"%char, "".
  - apply (pretty_N_head (Npos q)).
  - by exists "-"%char, (pretty q).
Qed.

(** A string without separator is a single piece. *)
Lemma split_cons_single (sep c : ascii) (s : string) :
  c ≠ sep → split sep s = [s] → split sep (String c s) = [String c s].
Proof. intros Hc Hs. simpl. rewrite Hs. by case_decide. Qed.

Lemma split_single_inv (sep c : ascii) (s : string) :
  split sep (String c s) = [String c s] → c ≠ sep ∧ split sep s = [s].
Proof.
  simpl. case_decide as Hc; [done|].
  destruct (split sep s) as [|piece pieces] eqn:Hs; intros Heq.
  - destruct s; simpl in Hs; [done|]. case_decide; [done|].
    by destruct (split sep s).
  - by simplify_eq.
Qed.

Lemma split_single_app (sep : ascii) (s t : string) :
  split sep s = [s] → split sep t = [t] → split sep (s +:+ t) = [s +:+ t].
Proof.
  intros Hs Ht. induction s as [|c s IH]; [done|].
  apply split_single_inv in Hs as [Hc Hs].
  change (String c s +:+ t) with (String c (s +:+ t)).
  apply split_cons_single; auto.
Qed.

Lemma pretty_N_char_not_slash (d : N) : pretty_N_char d ≠ "/"%char.
Proof. unfold pretty_N_char. by repeat case_match. Qed.

Lemma split_pretty_N_go (x : N) (s : string) :
  split "/" s = [s] → split "/" (pretty_N_go x s) = [pretty_N_go x s].
Proof.
  revert s. induction (N.lt_wf_0 x) as [x _ IH]; intros s Hs.
  destruct (decide (x = 0)%N) as [->|Hx]; [by rewrite pretty_N_go_0|].
  rewrite pretty_N_go_step by by apply N.neq_0_lt_0.
  apply IH; [apply N.div_lt; [by apply N.neq_0_lt_0|done]|].
  apply split_cons_single; auto using pretty_N_char_not_slash.
Qed.

Lemma split_pretty_N (x : N) : split "/" (pretty x) = [pretty x].
Proof.
  unfold pretty, pretty_N. case_decide; [done|]. by apply split_pretty_N_go.
Qed.

Lemma split_pretty_Z (z : Z) : split "/" (pretty z) = [pretty z].
Proof.
  destruct z as [|q|q]; unfold pretty, pretty_Z; [done| |].
  - apply (split_pretty_N (Npos q)).
  - apply (split_single_app "/" "-"); [done|apply (split_pretty_N (Npos q))].
Qed.

Lemma path_join_component (p : path) (s : string) :
  split "/" s = [s] → s ≠ "" → s ≠ "." → p // s = p ++ [s].
Proof.
  intros Hsplit Hempty Hdot. unfold path_join. rewrite Hsplit.
  assert (root_of s = None) as ->.
  { destruct s as [|c s]; [done|].
    apply split_single_inv in Hsplit as [Hc _].
    unfold root_of, startswith. cbn [String.prefix].
    by destruct (Ascii.ascii_dec "/" c) as [<-|_]. }
  rewrite filter_cons_True; [done|]. by split.
Qed.

Lemma path_join_pretty (p : path) (z : Z) : p // pretty z = p ++ [pretty z].
Proof.
  apply path_join_component; [apply split_pretty_Z| |];
    destruct (pretty_Z_head z) as (c & rest & -> & Hc); [done|].
  intros [= ? ?]. congruence.
Qed.

Lemma path_join_pbf (p : path) (z : Z) :
  p // (pretty z +:+ ".pbf") = p ++ [pretty z +:+ ".pbf"].
Proof.
  apply path_join_component.
  - apply split_single_app; [apply split_pretty_Z|done].
  - by destruct (pretty z).
  - by destruct (pretty z) as [|c [|c' s']].
Qed.

(** ** The file system *)

Lemma prefix_same_length {A} (q p l : list A) :
  q `prefix_of` l → p `prefix_of` l → length q = length p → q = p.
Proof.
  intros Hq Hp Hlen.
  destruct (prefix_weak_total _ _ _ Hq Hp) as [H|H];
    [|symmetry]; apply (prefix_length_eq _ _ H); lia.
Qed.

Lemma prefix_snoc_inv {A} (q l : list A) (x : A) :
  q `prefix_of` l ++ [x] → q `prefix_of` l ∨ q = l ++ [x].
Proof.
  intros Hq. destruct (decide (length q ≤ length l)%nat) as [Hle|Hgt].
  - left. destruct (prefix_weak_total q l (l ++ [x])) as [?|Hlq];
      [done|by apply prefix_app_r|done|].
    by rewrite (prefix_length_eq _ _ Hlq Hle).
  - right. apply prefix_length_eq; [done|]. rewrite length_app. simpl. lia.
Qed.

Lemma resolve_single (fs : gmap path node) (base : path) (c : string) :
  resolve fs base [c] =
    match fs !! (base ++ [c]) with
    | Some n => Ok n
    | None => Raise FileNotFoundError
    end.
Proof. simpl. by destruct (fs !! (base ++ [c])) as [[|]|]. Qed.

Lemma resolve_enter (fs : gmap path node) (base : path) (c c' : string)
    (rest : list string) :
  resolve fs base (c :: c' :: rest) =
    match fs !! (base ++ [c]) with
    | Some Dir => resolve fs (base ++ [c]) (c' :: rest)
    | Some (File _) => Raise NotADirectoryError
    | None => Raise FileNotFoundError
    end.
Proof. done. Qed.

Lemma resolve_lookup (rest : list string) (fs : gmap path node) (base : path) :
  rest ≠ [] →
  (∀ q, q `prefix_of` base ++ rest → (length base < length q)%nat →
        q ≠ base ++ rest → fs !! q = Some Dir) →
  resolve fs base rest =
    match fs !! (base ++ rest) with
    | Some n => Ok n
    | None => Raise FileNotFoundError
    end.
Proof.
  revert base. induction rest as [|c rest IH]; intros base Hne Hdirs; [done|].
  destruct rest as [|c' rest]; [apply resolve_single|].
  assert (Hsplit : base ++ c :: c' :: rest = (base ++ [c]) ++ c' :: rest)
    by by rewrite <-app_assoc.
  rewrite resolve_enter, (Hdirs (base ++ [c])).
  - rewrite Hsplit. apply IH; [done|].
    intros q Hq Hlen Hneq. apply Hdirs; [by rewrite Hsplit| |by rewrite Hsplit].
    rewrite length_app in Hlen. simpl in Hlen. lia.
  - rewrite Hsplit. by apply prefix_app_r.
  - rewrite length_app. simpl. lia.
  - intros Heq. apply (f_equal length) in Heq.
    rewrite !length_app in Heq. simpl in Heq. lia.
Qed.

Lemma resolve_dirs (rest : list string) (fs : gmap path node) (base : path) (n : node) :
  resolve fs base rest = Ok n → rest ≠ [] →
  fs !! (base ++ rest) = Some n ∧
  (∀ q, q `prefix_of` base ++ rest → (length base < length q)%nat →
        q ≠ base ++ rest → fs !! q = Some Dir).
Proof.
  revert base. induction rest as [|c rest IH]; intros base Hrun Hne; [done|].
  destruct rest as [|c' rest].
  { rewrite resolve_single in Hrun.
    destruct (fs !! (base ++ [c])) as [m|] eqn:Hlook; [|done].
    injection Hrun as ->. split; [done|].
    intros q Hq Hlen Hneq. exfalso. apply Hneq.
    apply prefix_length_eq; [done|]. rewrite length_app. simpl. lia. }
  rewrite resolve_enter in Hrun.
  destruct (fs !! (base ++ [c])) as [[d|]|] eqn:Hlook; [done| |done].
  assert (Hsplit : base ++ c :: c' :: rest = (base ++ [c]) ++ c' :: rest)
    by by rewrite <-app_assoc.
  destruct (IH (base ++ [c]) Hrun) as [Hfull Hdirs]; [done|].
  rewrite Hsplit. split; [done|].
  intros q Hq Hlen Hneq.
  destruct (decide (length q = length (base ++ [c]))) as [Heq|Hlen'].
  - assert (q = base ++ [c]) as ->; [|done].
    eapply prefix_same_length; [done| |done]. by apply prefix_app_r.
  - apply Hdirs; [done| |done]. rewrite length_app in *. simpl in *. lia.
Qed.

Lemma stat_lookup (fs : gmap path node) (p : path) :
  p ≠ [] →
  (∀ q, q `prefix_of` p → q ≠ [] → q ≠ p → fs !! q = Some Dir) →
  stat fs p =
    match fs !! p with
    | Some n => Ok n
    | None => Raise FileNotFoundError
    end.
Proof.
  intros Hne Hdirs. apply (resolve_lookup p fs []); [done|].
  intros q Hq Hlen Hneq. apply Hdirs; [done| |done].
  intros ->. simpl in Hlen. lia.
Qed.

Lemma stat_dirs (fs : gmap path node) (p : path) (n : node) :
  stat fs p = Ok n → p ≠ [] →
  fs !! p = Some n ∧
  (∀ q, q `prefix_of` p → q ≠ [] → q ≠ p → fs !! q = Some Dir).
Proof.
  intros Hrun Hne. destruct (resolve_dirs p fs [] n Hrun Hne) as [Hfull Hdirs].
  split; [done|]. intros q Hq Hq0 Hneq. apply Hdirs; [done| |done].
  destruct q; [done|simpl; lia].
Qed.

(** Below a directory the entries are reached through it. *)
Lemma stat_dir_prefixes (fs : gmap path node) (p : path) :
  stat fs p = Ok Dir → ∀ q, q `prefix_of` p → q ≠ [] → fs !! q = Some Dir.
Proof.
  intros Hrun q Hq Hq0.
  assert (Hne : p ≠ []) by (intros ->; by apply prefix_nil_inv in Hq).
  destruct (stat_dirs fs p Dir Hrun Hne) as [Hfull Hdirs].
  destruct (decide (q = p)) as [->|Hneq]; auto.
Qed.

Lemma parent_snoc (p : path) (c : string) : parent (p ++ [c]) = p.
Proof. apply removelast_last. Qed.

(** [mkdir(parents=True, exist_ok=True)] succeeds when no regular file is in
    the way; afterwards every part of the path is a directory and nothing
    but the missing parts has changed. *)
Lemma mkdir_from_spec (rest : list string) (fs : gmap path node) (base : path) :
  (∀ q d, q `prefix_of` base ++ rest → (length base < length q)%nat →
          fs !! q ≠ Some (File d)) →
  ∃ fs',
    mkdir_from fs base rest = Ok fs' ∧
    (∀ q, q `prefix_of` base ++ rest → (length base < length q)%nat →
          fs' !! q = Some Dir) ∧
    (∀ p, fs' !! p = fs !! p ∨
          (fs !! p = None ∧ fs' !! p = Some Dir ∧
           p `prefix_of` base ++ rest ∧ (length base < length p)%nat)).
Proof.
  revert fs base. induction rest as [|c rest IH]; intros fs base Hfree.
  { exists fs. split_and!; [done| |by left].
    intros q Hq Hlen. apply prefix_length in Hq. rewrite app_nil_r in Hq. lia. }
  assert (Hsplit : base ++ c :: rest = (base ++ [c]) ++ rest)
    by by rewrite <-app_assoc.
  assert (Hp : base ++ [c] `prefix_of` base ++ c :: rest)
    by (rewrite Hsplit; by apply prefix_app_r).
  assert (Hstep : ∀ q : path, q `prefix_of` base ++ c :: rest →
            (length base < length q)%nat →
            q = base ++ [c] ∨ (length (base ++ [c]) < length q)%nat).
  { intros q Hq Hlen.
    destruct (decide (length q = length (base ++ [c]))) as [Heq|Hne].
    - left. by eapply prefix_same_length.
    - right. rewrite length_app in *. simpl in *. lia. }
  simpl. destruct (fs !! (base ++ [c])) as [[d|]|] eqn:Hlook.
  - exfalso. eapply (Hfree (base ++ [c]) d); [done| |done].
    rewrite length_app. simpl. lia.
  - destruct (IH fs (base ++ [c])) as (fs' & Hrun & Hdirs & Hframe).
    { intros q d Hq Hlen. apply Hfree; [by rewrite Hsplit|].
      rewrite length_app in Hlen. simpl in Hlen. lia. }
    exists fs'. split_and!; [done| |].
    + intros q Hq Hlen. destruct (Hstep q Hq Hlen) as [->|Hlen'].
      * destruct (Hframe (base ++ [c])) as [->|(Hnone & _)]; [done|congruence].
      * apply Hdirs; [by rewrite <-Hsplit|done].
    + intros p. destruct (Hframe p) as [?|(?&?&?&Hlen)]; [by left|right].
      split_and!; [done|done|by rewrite Hsplit|].
      rewrite length_app in Hlen. simpl in Hlen. lia.
  - destruct (IH (<[base ++ [c] := Dir]> fs) (base ++ [c]))
      as (fs' & Hrun & Hdirs & Hframe).
    { intros q d Hq Hlen.
      rewrite lookup_insert_ne.
      - apply Hfree; [by rewrite Hsplit|].
        rewrite length_app in Hlen. simpl in Hlen. lia.
      - intros <-. lia. }
    exists fs'. split_and!; [done| |].
    + intros q Hq Hlen. destruct (Hstep q Hq Hlen) as [->|Hlen'].
      * destruct (Hframe (base ++ [c])) as [->|(Hnone & _)].
        -- by rewrite lookup_insert_eq.
        -- by rewrite lookup_insert_eq in Hnone.
      * apply Hdirs; [by rewrite <-Hsplit|done].
    + intros p. destruct (decide (p = base ++ [c])) as [->|Hne].
      * right. split_and!; [done| |done|rewrite length_app; simpl; lia].
        destruct (Hframe (base ++ [c])) as [->|(Hnone & _)].
        -- by rewrite lookup_insert_eq.
        -- by rewrite lookup_insert_eq in Hnone.
      * destruct (Hframe p) as [Heq|(Hnone&?&?&Hlen)].
        -- left. by rewrite Heq, lookup_insert_ne.
        -- right. rewrite lookup_insert_ne in Hnone by done.
           split_and!; [done|done|by rewrite Hsplit|].
           rewrite length_app in Hlen. simpl in Hlen. lia.
Qed.

Lemma files_under_lookup (d : path) (fs : gmap path node) (p : path) :
  files_under d fs !! p =
    if decide (d `prefix_of` p) then fs !! p ≫= file_data else None.
Proof.
  unfold files_under. rewrite lookup_omap, map_lookup_filter.
  destruct (fs !! p) as [n|]; simpl; [|by case_decide].
  case_guard; done.
Qed.

(** ** Extraction of a container *)

Ltac len := repeat rewrite length_app in *; simpl in *; lia.

Section ExtractRow.

Variable T : path.

Local Abbreviation tile_path_of r :=
  (((T ++ [pretty (zoom_level r)]) ++ [pretty (tile_column r)]) ++
     [pretty (flip_y (zoom_level r) (tile_row_bottom r)) +:+ ".pbf"]).

Lemma extract_row_spec (fs : gmap path node) (r : tile_row) :
  tiles_shape T fs →
  ∃ fs',
    extract_row T fs r = Ok fs' ∧
    tiles_shape T fs' ∧
    fs' !! tile_path_of r = Some (File (tile_data r)) ∧
    (∀ q, q `prefix_of` parent (tile_path_of r) → q ≠ [] → fs' !! q = Some Dir) ∧
    (∀ p, p ≠ tile_path_of r →
       fs' !! p = fs !! p ∨
       (fs !! p = None ∧ fs' !! p = Some Dir ∧ T `prefix_of` p ∧
        p `prefix_of` parent (tile_path_of r))).
Proof.
  intros [Hup Hshape]. unfold extract_row.
  rewrite !path_join_pretty, path_join_pbf, parent_snoc.
  set (par := (T ++ [pretty (zoom_level r)]) ++ [pretty (tile_column r)]).
  set (tp := par ++ _).
  assert (HTpar : T `prefix_of` par).
  { unfold par. rewrite <-app_assoc. by apply prefix_app_r. }
  assert (Hunder : ∀ q : path, q `prefix_of` par → q ≠ [] →
            fs !! q = Some Dir ∨ T `prefix_of` q).
  { intros q Hq Hne.
    destruct (prefix_weak_total _ _ _ Hq HTpar) as [HqT|HTq]; [left|by right].
    by apply Hup. }
  destruct (mkdir_from_spec par fs []) as (fs1 & Hrun & Hdirs & Hframe).
  { intros q d Hq Hlen Hfile. simpl in *.
    assert (Hne : q ≠ []) by (intros ->; simpl in Hlen; lia).
    destruct (Hunder q Hq Hne) as [Hdir|HTq]; [congruence|].
    specialize (Hshape _ _ Hfile HTq). simpl in Hshape.
    apply prefix_length in Hq. unfold par in Hq. len. }
  unfold mkdir_parents. rewrite Hrun. simpl.
  assert (Hptp : parent tp = par) by apply parent_snoc.
  assert (Hpar1 : fs1 !! par = Some Dir).
  { apply Hdirs; [done|]. unfold par. len. }
  assert (Hspar : stat fs1 par = Ok Dir).
  { rewrite stat_lookup, Hpar1; [done|unfold par; by destruct T|].
    intros q Hq Hq0 _. apply Hdirs; [done|]. destruct q; [done|simpl; lia]. }
  assert (Hstp : stat fs1 tp = match fs1 !! tp with
                               | Some n => Ok n
                               | None => Raise FileNotFoundError
                               end).
  { apply stat_lookup; [unfold tp; by destruct par|].
    intros q Hq Hq0 Hneq. apply Hdirs; [|destruct q; [done|simpl; lia]].
    simpl. by apply prefix_snoc_inv in Hq as [Hq|Hq]. }
  unfold write_bytes. rewrite Hptp, Hspar. simpl. rewrite Hstp.
  assert (Htp1 : fs1 !! tp ≠ Some Dir).
  { intros Hdir. destruct (Hframe tp) as [Heq|(_ & _ & Hpre & _)].
    - rewrite Hdir in Heq. symmetry in Heq.
      assert (HTtp : T `prefix_of` tp) by (unfold tp; by apply prefix_app_r).
      specialize (Hshape _ _ Heq HTtp). simpl in Hshape. unfold tp, par in Hshape. len.
    - apply prefix_length in Hpre. unfold tp in Hpre. len. }
  exists (<[tp := File (tile_data r)]> fs1). split_and!.
  - by destruct (fs1 !! tp) as [[|]|].
  - split.
    + intros q Hq Hne.
      rewrite lookup_insert_ne.
      * destruct (Hframe q) as [->|(_ & -> & _)]; [|done]. by apply Hup.
      * intros <-. apply prefix_length in Hq. unfold tp, par in Hq. len.
    + intros p n Hp HTp. destruct (decide (p = tp)) as [->|Hne].
      * rewrite lookup_insert_eq in Hp. injection Hp as <-. unfold tp, par. len.
      * rewrite lookup_insert_ne in Hp by done.
        destruct (Hframe p) as [Heq|(_ & Hdir & Hpre & _)].
        -- rewrite Heq in Hp. by apply Hshape.
        -- rewrite Hdir in Hp. injection Hp as <-.
           apply prefix_length in Hpre. simpl in Hpre. unfold par in Hpre. len.
  - by rewrite lookup_insert_eq.
  - intros q Hq Hq0. rewrite lookup_insert_ne.
    + apply Hdirs; [done|]. destruct q; [done|simpl; lia].
    + intros <-. apply prefix_length in Hq. unfold tp in Hq. len.
  - intros p Hne. rewrite lookup_insert_ne by done.
    destruct (Hframe p) as [?|(Hnone & Hdir & Hpre & Hlen)]; [by left|right].
    simpl in Hpre. split_and!; [done|done| |done].
    assert (Hpne : p ≠ []) by (intros ->; simpl in Hlen; lia).
    destruct (Hunder p Hpre Hpne) as [Hd|?]; [congruence|done].
Qed.

Lemma extract_row_files (fs fs' : gmap path node) (r : tile_row) :
  tiles_shape T fs → extract_row T fs r = Ok fs' →
  files_under T fs' = <[tile_path_of r := tile_data r]> (files_under T fs) ∧
  (∀ p, ¬ T `prefix_of` p → fs' !! p = fs !! p) ∧
  (∀ p, fs !! p = Some Dir → fs' !! p = Some Dir).
Proof.
  intros Hinv Hrun.
  destruct (extract_row_spec fs r Hinv) as (fs2 & Hrun2 & _ & Hfile & _ & Hframe).
  rewrite Hrun in Hrun2. injection Hrun2 as <-.
  assert (HTtp : T `prefix_of` tile_path_of r).
  { rewrite <-!app_assoc. by apply prefix_app_r. }
  split_and!.
  - apply map_eq. intros p. rewrite files_under_lookup.
    destruct (decide (p = tile_path_of r)) as [->|Hne].
    + rewrite lookup_insert_eq, Hfile. by case_decide.
    + rewrite lookup_insert_ne, files_under_lookup by done.
      case_decide; [|done].
      by destruct (Hframe p Hne) as [->|(-> & -> & _)].
  - intros p HTp. destruct (decide (p = tile_path_of r)) as [->|Hne]; [done|].
    by destruct (Hframe p Hne) as [->|(_ & _ & ? & _)].
  - intros p Hdir. destruct (decide (p = tile_path_of r)) as [->|Hne].
    + destruct Hinv as [_ Hshape]. specialize (Hshape _ _ Hdir HTtp).
      simpl in Hshape. len.
    + destruct (Hframe p Hne) as [->|(_ & -> & _)]; done.
Qed.

Lemma extract_rows_spec (rows : list tile_row) (fs : gmap path node) :
  tiles_shape T fs →
  ∃ fs',
    for_each (extract_row T) rows fs = Ok fs' ∧
    tiles_shape T fs' ∧
    files_under T fs' =
      foldl (λ m r, <[tile_path_of r := tile_data r]> m) (files_under T fs) rows ∧
    (∀ p, ¬ T `prefix_of` p → fs' !! p = fs !! p) ∧
    (∀ p, fs !! p = Some Dir → fs' !! p = Some Dir) ∧
    (∀ r q, r ∈ rows → q `prefix_of` parent (tile_path_of r) → q ≠ [] →
            fs' !! q = Some Dir).
Proof.
  revert fs. induction rows as [|r rows IH]; intros fs Hinv.
  { exists fs. split_and!; try done. intros r q Hr. by apply elem_of_nil in Hr. }
  destruct (extract_row_spec fs r Hinv) as (fs1 & Hrun1 & Hinv1 & _ & Hpar & _).
  destruct (extract_row_files fs fs1 r Hinv Hrun1) as (Hfiles1 & Hout1 & Hdirs1).
  destruct (IH fs1 Hinv1) as (fs' & Hrun & Hinv' & Hfiles & Hout & Hdirs & Hpars).
  exists fs'. simpl. rewrite Hrun1. simpl. split_and!; try done.
  - by rewrite Hfiles, Hfiles1.
  - intros p Hp. by rewrite Hout, Hout1.
  - auto.
  - intros r' q [->|Hr']%elem_of_cons Hq Hq0; eauto.
Qed.

End ExtractRow.

(** Writing the rows in order: with pairwise distinct keys no write is
    overwritten. *)
Section WritesInOrder.

Context {A : Type} (key : A → path) (val : A → bytes).

Local Abbreviation writes := (foldl (λ (m : gmap path bytes) r, <[key r := val r]> m)).

Lemma writes_lookup_other (l : list A) (m : gmap path bytes) (k : path) :
  k ∉ key <$> l → writes m l !! k = m !! k.
Proof.
  revert m. induction l as [|r l IH]; intros m Hk; [done|].
  rewrite fmap_cons, not_elem_of_cons in Hk. destruct Hk as [Hne Hk].
  simpl. rewrite IH by done. by rewrite lookup_insert_ne.
Qed.

Lemma writes_distinct (l : list A) (m : gmap path bytes) :
  NoDup (key <$> l) →
  (∀ r, r ∈ l → m !! key r = None) →
  size (writes m l) = (size m + length l)%nat ∧
  (∀ r, r ∈ l → writes m l !! key r = Some (val r)).
Proof.
  revert m. induction l as [|r l IH]; intros m Hnd Hfree.
  { simpl. split; [lia|]. intros r Hr. by apply elem_of_nil in Hr. }
  rewrite fmap_cons in Hnd. apply NoDup_cons in Hnd as [Hr Hnd].
  destruct (IH (<[key r := val r]> m) Hnd) as [Hsize Hlook].
  { intros r' Hr'. rewrite lookup_insert_ne.
    - apply Hfree. by right.
    - intros Heq. apply Hr. rewrite Heq. by apply list_elem_of_fmap_2. }
  simpl. split.
  - rewrite Hsize, map_size_insert_None; [lia|]. apply Hfree. by left.
  - intros r' [->|Hr']%elem_of_cons; [|by apply Hlook].
    rewrite writes_lookup_other by done. by rewrite lookup_insert_eq.
Qed.

End WritesInOrder.

Lemma foldl_ext {A B} (f g : A → B → A) (l : list B) (a : A) :
  (∀ a b, f a b = g a b) → foldl f a l = foldl g a l.
Proof.
  intros Hfg. revert a. induction l as [|b l IH]; intros a; [done|].
  simpl. by rewrite Hfg, IH.
Qed.

Lemma NoDup_fmap_elem_inj {A B} (f : A → B) (l : list A) (x y : A) :
  NoDup (f <$> l) → x ∈ l → y ∈ l → f x = f y → x = y.
Proof.
  induction l as [|a l IH]; intros Hnd Hx Hy Heq.
  { by apply elem_of_nil in Hx. }
  rewrite fmap_cons in Hnd. apply NoDup_cons in Hnd as [Ha Hnd].
  apply elem_of_cons in Hx as [->|Hx]; apply elem_of_cons in Hy as [->|Hy].
  - done.
  - exfalso. apply Ha. rewrite Heq. by apply list_elem_of_fmap_2.
  - exfalso. apply Ha. rewrite <-Heq. by apply list_elem_of_fmap_2.
  - by apply IH.
Qed.

Lemma string_length_app (s t : string) :
  String.length (s +:+ t) = (String.length s + String.length t)%nat.
Proof. induction s as [|c s IH]; simpl; [done|by rewrite IH]. Qed.

Lemma string_app_inj_r (t s1 s2 : string) : s1 +:+ t = s2 +:+ t → s1 = s2.
Proof.
  revert s2. induction s1 as [|c s1 IH]; intros [|c' s2] Heq; simpl in Heq.
  - done.
  - apply (f_equal String.length) in Heq.
    rewrite ?string_length_app in Heq. simpl in Heq.
    rewrite ?string_length_app in Heq. lia.
  - apply (f_equal String.length) in Heq.
    rewrite ?string_length_app in Heq. simpl in Heq.
    rewrite ?string_length_app in Heq. lia.
  - injection Heq as -> Heq. f_equal. by apply IH.
Qed.

Lemma served_path_tile_path (output_dir : path) (r : tile_row) :
  served_path output_dir r =
    (((output_dir ++ ["tiles"]) ++ [pretty (zoom_level r)]) ++
       [pretty (tile_column r)]) ++
      [pretty (flip_y (zoom_level r) (tile_row_bottom r)) +:+ ".pbf"].
Proof. unfold served_path, flip_y. by rewrite <-!app_assoc. Qed.

Lemma served_path_inj (output_dir : path) (r1 r2 : tile_row) :
  served_path output_dir r1 = served_path output_dir r2 →
  address r1 = address r2.
Proof.
  unfold served_path, address. intros Heq.
  apply app_inv_head in Heq. injection Heq as Hz Hx Hy.
  apply string_app_inj_r in Hy.
  apply (inj pretty) in Hz, Hx, Hy. rewrite Hz in Hy.
  f_equal; [f_equal; done|lia].
Qed.

Lemma fresh_destination_tiles_dir (fs : gmap path node) (output_dir : path) :
  fresh_destination fs output_dir →
  ∃ fs1,
    mkdir_parents fs (output_dir ++ ["tiles"]) = Ok fs1 ∧
    tiles_shape (output_dir ++ ["tiles"]) fs1 ∧
    files_under (output_dir ++ ["tiles"]) fs1 = ∅ ∧
    fs1 !! (output_dir ++ ["metadata.json"]) = None.
Proof.
  intros [Hstat Hempty]. set (T := output_dir ++ ["tiles"]).
  pose proof (stat_dir_prefixes fs output_dir Hstat) as Hup.
  assert (HoT : output_dir `prefix_of` T) by by apply prefix_app_r.
  assert (Hbelow : ∀ p : path, T `prefix_of` p → fs !! p = None).
  { intros p HTp. apply Hempty; [by etrans|].
    intros ->. apply prefix_length in HTp. unfold T in HTp. len. }
  destruct (mkdir_from_spec T fs []) as (fs1 & Hrun & Hdirs & Hframe).
  { intros q d Hq Hlen Hfile. simpl in *.
    assert (Hne : q ≠ []) by (intros ->; simpl in Hlen; lia).
    unfold T in Hq. apply prefix_snoc_inv in Hq as [Hq|Hq].
    - rewrite Hup in Hfile by done. done.
    - rewrite Hbelow in Hfile; [done|]. by rewrite Hq. }
  exists fs1. split_and!; [done| | |].
  - split.
    + intros q Hq Hne. apply Hdirs; [done|]. destruct q; [done|simpl; lia].
    + intros p n Hp HTp. destruct (Hframe p) as [Heq|(_ & Hdir & Hpre & _)].
      * rewrite Heq, Hbelow in Hp by done. done.
      * rewrite Hdir in Hp. injection Hp as <-.
        apply prefix_length in Hpre. simpl in Hpre. lia.
  - apply map_eq. intros p. rewrite files_under_lookup, lookup_empty.
    case_decide as HTp; [|done].
    destruct (Hframe p) as [->|(_ & -> & _)]; [|done].
    by rewrite Hbelow.
  - destruct (Hframe (output_dir ++ ["metadata.json"]))
      as [->|(_ & _ & Hpre & _)].
    + apply Hempty; [by apply prefix_app_r|].
      intros Heq. apply (f_equal length) in Heq. len.
    + simpl in Hpre. unfold T in Hpre.
      apply prefix_app_inv in Hpre. by apply prefix_cons_inv_1 in Hpre.
Qed.

(** C2: on a fresh destination the extraction succeeds and returns the
    metadata dictionary; the regular files below [output_dir/tiles] are
    exactly what writing, for each row [(z, x, row_bottom, data)] in cursor
    order, the bytes [data] to [tiles/z/x/(2^z - 1 - row_bottom).pbf] leaves,
    the parent directories having been created; a row [(5, 10, 3)] lands at
    [5/10/28.pbf]; and when the [N] rows have pairwise distinct addresses
    there are exactly [N] tile files, each holding its row's blob. *)
Theorem extract_mbtiles_standard_spec
    (json_dump : gmap string string → bytes) (db : mbtiles)
    (output_dir : path) (fs : gmap path node) :
  fresh_destination fs output_dir →
  Forall (λ r, 0 ≤ zoom_level r) (tiles db) →
  ∃ fs',
    extract_mbtiles_standard json_dump db output_dir fs
      = Ok (fs', dict_of_pairs (metadata_rows db)) ∧
    files_under (output_dir ++ ["tiles"]) fs'
      = foldl (λ m r, <[served_path output_dir r := tile_data r]> m) ∅ (tiles db) ∧
    (∀ r, r ∈ tiles db → stat fs' (parent (served_path output_dir r)) = Ok Dir) ∧
    (∀ data, served_path output_dir (TileRow 5 10 3 data)
               = output_dir ++ ["tiles"; "5"; "10"; "28.pbf"]) ∧
    (NoDup (address <$> tiles db) →
       size (files_under (output_dir ++ ["tiles"]) fs') = length (tiles db) ∧
       ∀ r, r ∈ tiles db →
         read_bytes fs' (served_path output_dir r) = Ok (tile_data r)).
Proof.
  intros Hfresh _. set (T := output_dir ++ ["tiles"]).
  set (mp := output_dir ++ ["metadata.json"]).
  destruct (fresh_destination_tiles_dir fs output_dir Hfresh)
    as (fs1 & Hmk & Hinv1 & Hfiles1 & Hmeta1).
  destruct (extract_rows_spec T (tiles db) fs1 Hinv1)
    as (fs2 & Hloop & Hinv2 & Hfiles2 & Hout2 & _ & Hpars2).
  assert (HmpT : ¬ T `prefix_of` mp).
  { unfold T, mp. intros Hpre.
    apply prefix_app_inv in Hpre. by apply prefix_cons_inv_1 in Hpre. }
  assert (Hwrite : write_bytes fs2 mp (json_dump (dict_of_pairs (metadata_rows db)))
            = Ok (<[mp := File (json_dump (dict_of_pairs (metadata_rows db)))]> fs2)).
  { unfold write_bytes.
    assert (parent mp = output_dir) as -> by apply parent_snoc.
    destruct Hinv2 as [Hup2 _].
    assert (Hod : stat fs2 output_dir = Ok Dir).
    { destruct (decide (output_dir = [])) as [->|Hne]; [done|].
      rewrite stat_lookup, Hup2; [done|by apply prefix_app_r|done|done|].
      intros q Hq Hq0 _. apply Hup2; [|done]. etrans; [done|by apply prefix_app_r]. }
    rewrite Hod. simpl.
    assert (Hmp : stat fs2 mp = Raise FileNotFoundError).
    { rewrite stat_lookup, (Hout2 mp HmpT); [unfold mp; by rewrite Hmeta1| |].
      - unfold mp. by destruct output_dir.
      - intros q Hq Hq0 Hneq. apply Hup2; [|done].
        unfold mp in Hq. apply prefix_snoc_inv in Hq as [Hq|Hq]; [|done].
        etrans; [done|by apply prefix_app_r]. }
    by rewrite Hmp. }
  exists (<[mp := File (json_dump (dict_of_pairs (metadata_rows db)))]> fs2).
  assert (Hfiles : files_under T
            (<[mp := File (json_dump (dict_of_pairs (metadata_rows db)))]> fs2)
            = foldl (λ m r, <[served_path output_dir r := tile_data r]> m) ∅ (tiles db)).
  { transitivity (files_under T fs2).
    - apply map_eq. intros p. rewrite !files_under_lookup.
      case_decide as HTp; [|done]. rewrite lookup_insert_ne; [done|].
      intros <-. done.
    - rewrite Hfiles2. unfold T. rewrite Hfiles1. apply foldl_ext. intros m r.
      by rewrite served_path_tile_path. }
  assert (Hdirs : ∀ r q, r ∈ tiles db →
            q `prefix_of` parent (served_path output_dir r) → q ≠ [] →
            <[mp := File (json_dump (dict_of_pairs (metadata_rows db)))]> fs2 !! q
              = Some Dir).
  { intros r q Hr Hq Hq0. rewrite served_path_tile_path in Hq.
    rewrite lookup_insert_ne; [by eapply Hpars2|].
    intros Heq. rewrite <-Heq, parent_snoc in Hq.
    assert (Hlen : length mp = length T) by (unfold mp, T; len).
    assert (HT : T `prefix_of` ((output_dir ++ ["tiles"]) ++
                  [pretty (zoom_level r)]) ++ [pretty (tile_column r)])
      by by apply prefix_app_r, prefix_app_r.
    destruct (prefix_weak_total _ _ _ Hq HT) as [HmT|HTm]; [|by apply HmpT].
    apply HmpT. rewrite (prefix_length_eq _ _ HmT); [done|lia]. }
  assert (Hstat : ∀ r n, r ∈ tiles db →
            <[mp := File (json_dump (dict_of_pairs (metadata_rows db)))]> fs2
              !! served_path output_dir r = Some n →
            stat (<[mp := File (json_dump (dict_of_pairs (metadata_rows db)))]> fs2)
              (served_path output_dir r) = Ok n).
  { intros r n Hr Hlook. rewrite stat_lookup, Hlook; [done|by destruct output_dir|].
    intros q Hq Hq0 Hneq. apply (Hdirs r); [done| |done].
    rewrite served_path_tile_path in Hq, Hneq |- *. rewrite parent_snoc.
    by apply prefix_snoc_inv in Hq as [Hq|Hq]. }
  split_and!.
  - unfold extract_mbtiles_standard. subst T mp.
    change (output_dir // "tiles") with (output_dir ++ ["tiles"]).
    change (output_dir // "metadata.json") with (output_dir ++ ["metadata.json"]).
    rewrite Hmk. simpl. rewrite Hloop. simpl. by rewrite Hwrite.
  - done.
  - intros r Hr.
    assert (Hne : parent (served_path output_dir r) ≠ []).
    { rewrite served_path_tile_path, parent_snoc. by destruct output_dir. }
    rewrite stat_lookup; [|done|].
    + by rewrite (Hdirs r).
    + intros q Hq Hq0 _. by apply (Hdirs r).
  - intros data. by vm_compute.
  - intros Hnd.
    destruct (writes_distinct (served_path output_dir) tile_data (tiles db) ∅)
      as [Hsize Hlook].
    + apply NoDup_fmap_2_strong; [|by eapply NoDup_fmap_1].
      intros r1 r2 Hr1 Hr2 Heq%served_path_inj.
      by eapply NoDup_fmap_elem_inj.
    + done.
    + split.
      * rewrite Hfiles, Hsize, map_size_empty. lia.
      * intros r Hr. specialize (Hlook r Hr). rewrite <-Hfiles in Hlook.
        rewrite files_under_lookup in Hlook. case_decide; [|done].
        unfold read_bytes.
        destruct (_ !! served_path output_dir r) as [n|] eqn:Hn; [|done].
        rewrite (Hstat r n Hr Hn). by destruct n; simplify_eq/=.
Qed.

Lemma extract_mbtiles_standard_spec_witness :
  let db := Mbtiles [TileRow 5 10 3 [Byte.x1f; Byte.x8b]; TileRow 0 0 0 []]
                    [("name", "contours")] in
  let fs : gmap path node := {[ ["out"] := Dir ]} in
  fresh_destination fs ["out"] ∧
  Forall (λ r, 0 ≤ zoom_level r) (tiles db) ∧
  ∃ fs',
    extract_mbtiles_standard (λ _, []) db ["out"] fs
      = Ok (fs', dict_of_pairs (metadata_rows db)) ∧
    files_under (["out"] ++ ["tiles"]) fs'
      = foldl (λ m r, <[served_path ["out"] r := tile_data r]> m) ∅ (tiles db) ∧
    (∀ r, r ∈ tiles db → stat fs' (parent (served_path ["out"] r)) = Ok Dir) ∧
    (∀ data, served_path ["out"] (TileRow 5 10 3 data)
               = ["out"] ++ ["tiles"; "5"; "10"; "28.pbf"]) ∧
    (NoDup (address <$> tiles db) →
       size (files_under (["out"] ++ ["tiles"]) fs') = length (tiles db) ∧
       ∀ r, r ∈ tiles db →
         read_bytes fs' (served_path ["out"] r) = Ok (tile_data r)).
Proof.
  intros db fs.
  assert (Hfresh : fresh_destination fs ["out"]).
  { split; [reflexivity|].
    intros p Hp Hne. by apply lookup_singleton_ne. }
  assert (Hzoom : Forall (λ r, 0 ≤ zoom_level r) (tiles db)).
  { repeat constructor; simpl; lia. }
  split; [exact Hfresh|]. split; [exact Hzoom|].
  exact (extract_mbtiles_standard_spec (λ _, []) db ["out"] fs Hfresh Hzoom).
Defined.

(** Two rows with one address: the later blob replaces the earlier one, and
    there are fewer files than rows. *)
Example extract_same_address :
  let db := Mbtiles [TileRow 5 10 3 [Byte.x01]; TileRow 5 10 3 [Byte.x02]] [] in
  (λ out, (out.1 !! ["out"; "tiles"; "5"; "10"; "28.pbf"],
           size (files_under ["out"; "tiles"] out.1)))
    <$> extract_mbtiles_standard (λ _, []) db ["out"] {[ ["out"] := Dir ]}
  = Ok (Some (File [Byte.x02]), 1%nat).
Proof. by vm_compute. Qed.

(** A regular file where the tiles directory should be stops the
    extraction. *)
Example extract_blocked :
  extract_mbtiles_standard (λ _, []) (Mbtiles [] []) ["out"]
    {[ ["out"] := Dir; ["out"; "tiles"] := File [] ]}
  = Raise FileExistsError.
Proof. reflexivity. Qed.

(** ** The retrieval service *)




(** Nothing lies at [5/10.pbf]: the empty tile.  A directory at that place
    is neither case: [exists()] holds and reading raises. *)
Example serve_tile_directory :
  serve_tile ["srv"; "tiles"] example_tree "5" "" "10" = Ok (Reply 200
    [("Content-Type", "application/vnd.mapbox-vector-tile");
     ("Access-Control-Allow-Origin", "*");
     ("Cache-Control", "public, max-age=31536000");
     ("X-OFM-Debug", "empty tile"); ("Content-Length", "0")] []) ∧
  serve_tile ["srv"; "tiles"] (<[ ["srv"; "tiles"; "5"; "10.pbf"] := Dir ]> example_tree)
    "5" "" "10" = Raise IsADirectoryError.
Proof. split; reflexivity. Qed.







(** ** The descriptor *)

Section Descriptor.

Variable json_loads : string → option json.



End Descriptor.



(** A value that parses but is no dictionary is not swallowed. *)
Example build_tilejson_json_array :
  build_tilejson (λ _, Some (JArr [])) {[ "json" := "[]" ]} "" = Raise AttributeError.
Proof. reflexivity. Qed.

(** C8: in the descriptor that the builder returns, a text field is the
    supplied value or its default, [minzoom]/[maxzoom] are the supplied
    strings read as integers or 0 and 14, [bounds]/[center] are the supplied
    comma-separated lists read as floats or [-180,-85,180,85] and [0,0,2],
    and [tiles] is the one template below the base URL; with none of the
    parsed keys supplied the builder succeeds; and the metadata
    [{minzoom: "2", maxzoom: "12", bounds: "-1,-1,1,1"}] yields [minzoom = 2],
    [maxzoom = 12] and no vector layers. *)
Theorem build_tilejson_fields
    (json_loads : string → option json) (base_url : string) :
  (∀ metadata tj,
     build_tilejson json_loads metadata base_url = Ok tj →
     tj_tiles tj = [base_url +:+ "/{z}/{x}/{y}.pbf"] ∧
     tj_name tj = default "Contour Tiles" (metadata !! "name") ∧
     tj_description tj = default "Elevation contour lines" (metadata !! "description") ∧
     tj_version tj = default "1.0.0" (metadata !! "version") ∧
     tj_attribution tj = default "" (metadata !! "attribution") ∧
     match metadata !! "minzoom" with
     | Some text => int_of_str text = Ok (tj_minzoom tj)
     | None => tj_minzoom tj = 0
     end ∧
     match metadata !! "maxzoom" with
     | Some text => int_of_str text = Ok (tj_maxzoom tj)
     | None => tj_maxzoom tj = 14
     end ∧
     match metadata !! "bounds" with
     | Some text => mapM py_float (split "," text) = Ok (tj_bounds tj)
     | None => float_value <$> tj_bounds tj
                 = [Some (-180); Some (-85); Some 180; Some 85]%R
     end ∧
     match metadata !! "center" with
     | Some text => mapM py_float (split "," text) = Ok (tj_center tj)
     | None => float_value <$> tj_center tj = [Some 0; Some 0; Some 2]%R
     end) ∧
  (∀ metadata,
     metadata !! "json" = None → metadata !! "minzoom" = None →
     metadata !! "maxzoom" = None → metadata !! "bounds" = None →
     metadata !! "center" = None →
     ∃ tj, build_tilejson json_loads metadata base_url = Ok tj) ∧
  (∃ tj,
     build_tilejson json_loads
       {[ "minzoom" := "2"; "maxzoom" := "12"; "bounds" := "-1,-1,1,1" ]} base_url
       = Ok tj ∧
     tj_minzoom tj = 2 ∧ tj_maxzoom tj = 12 ∧ tj_vector_layers tj = JArr []).
Proof.
  split_and!.
  - intros metadata tj Hrun. unfold build_tilejson in Hrun.
    apply bind_Ok in Hrun as (layers & _ & Hrun).
    apply bind_Ok in Hrun as (minzoom & Hmin & Hrun).
    apply bind_Ok in Hrun as (maxzoom & Hmax & Hrun).
    apply bind_Ok in Hrun as (bounds & Hbounds & Hrun).
    apply bind_Ok in Hrun as (center & Hcenter & Hrun).
    injection Hrun as <-. simpl. split_and!; try done.
    + destruct (metadata !! "minzoom"); simpl in Hmin; [done|congruence].
    + destruct (metadata !! "maxzoom"); simpl in Hmax; [done|congruence].
    + destruct (metadata !! "bounds"); simpl in Hbounds; [done|].
      vm_compute in Hbounds. injection Hbounds as <-.
      unfold float_value. simpl. repeat (f_equal; try lra).
    + destruct (metadata !! "center"); simpl in Hcenter; [done|].
      vm_compute in Hcenter. injection Hcenter as <-.
      unfold float_value. simpl. repeat (f_equal; try lra).
  - intros metadata Hjson Hmin Hmax Hbounds Hcenter.
    unfold build_tilejson, vector_layers_of.
    rewrite Hjson, Hmin, Hmax, Hbounds, Hcenter. by eexists.
  - eexists. split; [reflexivity|]. done.
Qed.

Lemma build_tilejson_fields_witness :
  let metadata : gmap string string :=
    {[ "minzoom" := "2"; "maxzoom" := "12"; "bounds" := "-1,-1,1,1" ]} in
  ∃ tj,
    build_tilejson (λ _, None) metadata "http://localhost:8080/contours" = Ok tj ∧
    tj_tiles tj = ["http://localhost:8080/contours/{z}/{x}/{y}.pbf"] ∧
    tj_name tj = "Contour Tiles" ∧
    int_of_str "2" = Ok (tj_minzoom tj) ∧
    mapM py_float (split "," "-1,-1,1,1") = Ok (tj_bounds tj) ∧
    float_value <$> tj_center tj = [Some 0; Some 0; Some 2]%R.
Proof.
  intros metadata.
  destruct (build_tilejson_fields (λ _, None) "http://localhost:8080/contours")
    as (Hfields & _ & (tj & Hrun & _)).
  destruct (Hfields metadata tj Hrun)
    as (Htiles & Hname & _ & _ & _ & Hmin & _ & Hbounds & Hcenter).
  exists tj. split_and!; done.
Defined.

(** ** The coordinate converter *)

Section Reals.

Local Open Scope R_scope.

Lemma int_of_float_nonneg (v : R) : 0 <= v → int_of_float v = Int_part v.
Proof. intros Hv. unfold int_of_float. by destruct (Rle_dec 0 v). Qed.










End Reals.


Lemma standalone_get_tiles_for_bbox (bbox : R * R * R * R) (zoom : Z) :
  Standalone.get_tiles_for_bbox bbox zoom = get_tiles_for_bbox bbox zoom.
Proof.
  destruct bbox as [[[west south] east] north].
  unfold Standalone.get_tiles_for_bbox, get_tiles_for_bbox, tile_range.
  change Standalone.lat_lon_to_tile with lat_lon_to_tile.
  destruct (lat_lon_to_tile north west zoom) as [x1 y1].
  destruct (lat_lon_to_tile south east zoom) as [x2 y2].
  by destruct (x1 >? x2), (y1 >? y2).
Qed.



Example lat_lon_to_tile_origin : lat_lon_to_tile 0 0 1 = (1, 1).
Proof.
  unfold lat_lon_to_tile, radians. change (2 ^ 1) with 2.
  rewrite Rmult_0_l, tan_0, arcsinh_0.
  pose proof PI_RGT_0 as Hpi.
  replace ((1 - 0 / PI) / 2 * 2)%R with 1%R by (field; lra).
  f_equal; rewrite int_of_float_nonneg by lra;
    symmetry; apply Int_part_spec; lra.
Qed.

(** Outside the precondition truncation and floor part: west of -180 the
    column is rounded up toward zero. *)
Example lat_lon_to_tile_west_of_range :
  (lat_lon_to_tile 0 (-270) 0).1 = 0 ∧ Int_part ((-270 + 180) / 360 * IZR (2 ^ 0)) = -1.
Proof.
  split.
  - unfold lat_lon_to_tile, int_of_float. cbn [fst]. change (2 ^ 0) with 1.
    destruct (Rle_dec _ _) as [H|H]; [lra|].
    assert (Int_part (- ((-270 + 180) / 360 * 1)) = 0) as ->; [|done].
    symmetry. apply Int_part_spec. lra.
  - change (2 ^ 0) with 1. symmetry. apply Int_part_spec. lra.
Qed.



(** *** The tile range of a bounding box *)


Lemma NoDup_py_range (a b : Z) : NoDup (py_range a b).
Proof.
  unfold py_range. apply NoDup_fmap_2; [|apply NoDup_seq].
  intros i j Hij. lia.
Qed.


(** The two nested loops append the rows of the rectangle one after the
    other. *)
Lemma append_loop {A B} (f : A → list B) (xs : list A) (acc : list B) :
  foldl (λ acc x, acc ++ f x) acc xs = acc ++ (xs ≫= f).
Proof.
  revert acc. induction xs as [|x xs IH]; intros acc; simpl.
  - by rewrite app_nil_r.
  - by rewrite IH, app_assoc.
Qed.

Lemma tiles_loop (zoom : Z) (xs ys : list Z) :
  foldl (λ tiles x, foldl (λ tiles y, tiles ++ [(zoom, x, y)]) tiles ys) [] xs
  = x ← xs; y ← ys; [(zoom, x, y)].
Proof.
  rewrite <-(app_nil_l (xs ≫= _)), <-append_loop.
  apply foldl_ext. intros tiles x. apply append_loop.
Qed.

Lemma elem_of_rectangle (zoom : Z) (xs ys : list Z) (t : Z * Z * Z) :
  t ∈ (x ← xs; y ← ys; [(zoom, x, y)]) ↔
  ∃ x y, t = (zoom, x, y) ∧ x ∈ xs ∧ y ∈ ys.
Proof.
  rewrite list_elem_of_bind. split.
  - intros (x & Ht & Hx). apply list_elem_of_bind in Ht as (y & Ht & Hy).
    apply list_elem_of_singleton in Ht. eauto.
  - intros (x & y & -> & Hx & Hy). exists x. split; [|done].
    apply list_elem_of_bind. exists y. split; [|done].
    by apply list_elem_of_singleton.
Qed.

Lemma NoDup_rectangle (zoom : Z) (xs ys : list Z) :
  NoDup xs → NoDup ys → NoDup (x ← xs; y ← ys; [(zoom, x, y)]).
Proof.
  intros Hxs Hys. induction Hxs as [|x xs Hx Hxs IH]; simpl; [constructor|].
  apply NoDup_app. split_and!; [| |exact IH].
  - clear IH. induction Hys as [|y ys Hy Hys IH]; simpl; [constructor|].
    constructor; [|done].
    intros (y' & [= <-]%list_elem_of_singleton & Hy')%list_elem_of_bind. done.
  - intros t (y & [= ->]%list_elem_of_singleton & _)%list_elem_of_bind.
    intros (x' & y' & [= <- <-] & Hx' & _)%elem_of_rectangle. done.
Qed.


Lemma tile_range_min_max (west south east north : R) (zoom : Z) :
  tile_range (west, south, east, north) zoom =
    ((Z.min (lat_lon_to_tile north west zoom).1 (lat_lon_to_tile south east zoom).1,
      Z.max (lat_lon_to_tile north west zoom).1 (lat_lon_to_tile south east zoom).1),
     (Z.min (lat_lon_to_tile north west zoom).2 (lat_lon_to_tile south east zoom).2,
      Z.max (lat_lon_to_tile north west zoom).2 (lat_lon_to_tile south east zoom).2)).
Proof.
  unfold tile_range.
  destruct (lat_lon_to_tile north west zoom) as [x1 y1].
  destruct (lat_lon_to_tile south east zoom) as [x2 y2]. simpl.
  destruct (Z.gtb_spec x1 x2), (Z.gtb_spec y1 y2); repeat f_equal; lia.
Qed.

Lemma get_tiles_for_bbox_loops (west south east north : R) (zoom : Z) :
  get_tiles_for_bbox (west, south, east, north) zoom
    = (x ← py_range (Z.min (lat_lon_to_tile north west zoom).1
                           (lat_lon_to_tile south east zoom).1)
                    (Z.max (lat_lon_to_tile north west zoom).1
                           (lat_lon_to_tile south east zoom).1 + 1);
       y ← py_range (Z.min (lat_lon_to_tile north west zoom).2
                           (lat_lon_to_tile south east zoom).2)
                    (Z.max (lat_lon_to_tile north west zoom).2
                           (lat_lon_to_tile south east zoom).2 + 1);
       [(zoom, x, y)]).
Proof.
  unfold get_tiles_for_bbox. rewrite tile_range_min_max. apply tiles_loop.
Qed.






(* ===================================================================== *)
(** * Part III: further properties of the sources                         *)
(* ===================================================================== *)

(** ** The tile grid *)

Section Grid.

Local Open Scope R_scope.




















End Grid.

(** ** Extraction: what it leaves on the disk *)

Section ExtractRowDirs.

Variable T : path.

Local Abbreviation tile_path_of r :=
  (((T ++ [pretty (zoom_level r)]) ++ [pretty (tile_column r)]) ++
     [pretty (flip_y (zoom_level r) (tile_row_bottom r)) +:+ ".pbf"]).

(** The loop creates directories only on the way to a tile. *)
Lemma extract_rows_new_dirs (rows : list tile_row) (fs fs' : gmap path node) :
  tiles_shape T fs → for_each (extract_row T) rows fs = Ok fs' →
  ∀ p, fs' !! p = Some Dir →
    fs !! p = Some Dir ∨
    ∃ r, r ∈ rows ∧ p `prefix_of` parent (tile_path_of r).
Proof.
  revert fs. induction rows as [|r rows IH]; intros fs Hinv Hrun p Hp.
  { injection Hrun as <-. by left. }
  destruct (extract_row_spec T fs r Hinv)
    as (fs1 & Hrun1 & Hinv1 & Hfile & _ & Hframe).
  simpl in Hrun. rewrite Hrun1 in Hrun. simpl in Hrun.
  destruct (IH fs1 Hinv1 Hrun p Hp) as [Hp1|(r' & Hr' & Hpre)].
  - assert (Hne : p ≠ tile_path_of r) by (intros ->; congruence).
    destruct (Hframe p Hne) as [Heq|(_ & _ & _ & Hpre)].
    + left. by rewrite <-Heq.
    + right. exists r. split; [by left|done].
  - right. exists r'. split; [by right|done].
Qed.

End ExtractRowDirs.

Section Destination.

Variable json_dump : gmap string string → bytes.
Variable output_dir : path.

Local Abbreviation T := (output_dir ++ ["tiles"]).
Local Abbreviation mp := (output_dir ++ ["metadata.json"]).

Lemma metadata_path_not_tiles (p : path) : T `prefix_of` p → p ≠ mp.
Proof.
  intros Hpre ->. apply prefix_app_inv in Hpre. by apply prefix_cons_inv_1 in Hpre.
Qed.

Lemma metadata_path_not_above (p : path) : p `prefix_of` T → p ≠ mp.
Proof.
  intros Hpre ->. apply prefix_app_inv in Hpre. by apply prefix_cons_inv_1 in Hpre.
Qed.

(** The extraction on a destination whose output directory exists, whose
    [tiles] tree (if any) has the layout [z/x/y.pbf] and whose
    [metadata.json] is not a directory. *)
Lemma extract_mbtiles_standard_disk (db : mbtiles) (fs : gmap path node) :
  (∀ q, q `prefix_of` output_dir → q ≠ [] → fs !! q = Some Dir) →
  (∀ p n, fs !! p = Some n → T `prefix_of` p →
     match n with
     | Dir => (length p ≤ length T + 2)%nat
     | File _ => length p = (length T + 3)%nat
     end) →
  fs !! mp ≠ Some Dir →
  ∃ fs2,
    extract_mbtiles_standard json_dump db output_dir fs
      = Ok (<[mp := File (json_dump (dict_of_pairs (metadata_rows db)))]> fs2,
            dict_of_pairs (metadata_rows db)) ∧
    tiles_shape T fs2 ∧
    files_under T fs2
      = foldl (λ m r, <[served_path output_dir r := tile_data r]> m)
              (files_under T fs) (tiles db) ∧
    (∀ p, ¬ T `prefix_of` p → fs2 !! p = fs !! p) ∧
    (∀ p, fs !! p = Some Dir → fs2 !! p = Some Dir) ∧
    (∀ r q, r ∈ tiles db → q `prefix_of` parent (served_path output_dir r) →
            q ≠ [] → fs2 !! q = Some Dir) ∧
    (∀ p, fs2 !! p = Some Dir →
       fs !! p = Some Dir ∨ p = T ∨
       ∃ r, r ∈ tiles db ∧ p `prefix_of` parent (served_path output_dir r)).
Proof.
  intros Hup Hshape Hmeta.
  destruct (mkdir_from_spec T fs []) as (fs1 & Hmk & Hdirs1 & Hframe1).
  { intros q d Hq Hlen Hfile. simpl in *.
    assert (Hne : q ≠ []) by (intros ->; simpl in Hlen; lia).
    apply prefix_snoc_inv in Hq as [Hq| ->].
    - rewrite Hup in Hfile by done. done.
    - specialize (Hshape _ _ Hfile (reflexivity _)). simpl in Hshape. lia. }
  simpl in Hdirs1, Hframe1.
  assert (Hinv1 : tiles_shape T fs1).
  { split.
    - intros q Hq Hne. apply Hdirs1; [done|]. destruct q; [done|simpl; lia].
    - intros p n Hp HTp. destruct (Hframe1 p) as [Heq|(_ & Hdir & Hpre & _)].
      + rewrite Heq in Hp. by apply Hshape.
      + rewrite Hdir in Hp. injection Hp as <-. apply prefix_length in Hpre. lia. }
  assert (Hfiles1 : files_under T fs1 = files_under T fs).
  { apply map_eq. intros p. rewrite !files_under_lookup.
    case_decide; [|done]. by destruct (Hframe1 p) as [->|(-> & -> & _)]. }
  destruct (extract_rows_spec T (tiles db) fs1 Hinv1)
    as (fs2 & Hloop & Hinv2 & Hfiles2 & Hout2 & Hkeep2 & Hpars2).
  pose proof (extract_rows_new_dirs T (tiles db) fs1 fs2 Hinv1 Hloop) as Hnew2.
  assert (Hmp2 : fs2 !! mp = fs !! mp).
  { rewrite Hout2 by (intros Hpre; by eapply metadata_path_not_tiles).
    destruct (Hframe1 mp) as [Heq|(_ & _ & Hpre & _)]; [done|].
    by apply metadata_path_not_above in Hpre. }
  assert (Hwrite : write_bytes fs2 mp (json_dump (dict_of_pairs (metadata_rows db)))
            = Ok (<[mp := File (json_dump (dict_of_pairs (metadata_rows db)))]> fs2)).
  { unfold write_bytes.
    assert (parent mp = output_dir) as -> by apply parent_snoc.
    destruct Hinv2 as [Hup2 _].
    assert (Hod : stat fs2 output_dir = Ok Dir).
    { destruct (decide (output_dir = [])) as [->|Hne]; [done|].
      rewrite stat_lookup, Hup2; [done|by apply prefix_app_r|done|done|].
      intros q Hq Hq0 _. apply Hup2; [|done]. etrans; [done|by apply prefix_app_r]. }
    rewrite Hod. simpl.
    rewrite stat_lookup, Hmp2.
    - by destruct (fs !! mp) as [[|]|].
    - by destruct output_dir.
    - intros q Hq Hq0 Hneq. apply Hup2; [|done].
      apply prefix_snoc_inv in Hq as [Hq|Hq]; [|done].
      etrans; [done|by apply prefix_app_r]. }
  exists fs2. split_and!.
  - unfold extract_mbtiles_standard.
    change (output_dir // "tiles") with T.
    change (output_dir // "metadata.json") with mp.
    unfold mkdir_parents. rewrite Hmk. simpl. rewrite Hloop. simpl.
    by rewrite Hwrite.
  - done.
  - rewrite Hfiles2, Hfiles1. apply foldl_ext. intros m r.
    by rewrite served_path_tile_path.
  - intros p Hp. rewrite Hout2 by done.
    destruct (Hframe1 p) as [Heq|(_ & _ & Hpre & Hlen)]; [done|].
    apply prefix_snoc_inv in Hpre as [Hpre| ->]; [|by destruct Hp].
    rewrite Hup; [|done|destruct p; [simpl in Hlen; lia|done]].
    destruct (Hframe1 p) as [->|(Hnone & _)]; [|].
    + apply Hup; [done|]. destruct p; [simpl in Hlen; lia|done].
    + rewrite Hup in Hnone; [done|done|]. destruct p; [simpl in Hlen; lia|done].
  - intros p Hp. apply Hkeep2.
    destruct (Hframe1 p) as [->|(Hnone & _)]; [done|congruence].
  - intros r q Hr Hq Hq0. rewrite served_path_tile_path in Hq. by eapply Hpars2.
  - intros p Hp. destruct (Hnew2 p Hp) as [Hp1|(r & Hr & Hpre)].
    + destruct (Hframe1 p) as [Heq|(_ & _ & Hpre & Hlen)].
      * left. by rewrite <-Heq.
      * apply prefix_snoc_inv in Hpre as [Hpre| ->]; [left|by right; left].
        apply Hup; [done|]. destruct p; [simpl in Hlen; lia|done].
    + right; right. exists r. split; [done|]. by rewrite served_path_tile_path.
Qed.

(** A fresh destination is such a destination, with nothing below
    [tiles]. *)
Lemma fresh_destination_ready (fs : gmap path node) :
  fresh_destination fs output_dir →
  (∀ q, q `prefix_of` output_dir → q ≠ [] → fs !! q = Some Dir) ∧
  (∀ p, T `prefix_of` p → fs !! p = None) ∧
  fs !! mp = None.
Proof.
  intros [Hstat Hempty]. split_and!.
  - by apply stat_dir_prefixes.
  - intros p HTp. apply Hempty; [etrans; [|done]; by apply prefix_app_r|].
    intros ->. apply prefix_length in HTp. len.
  - apply Hempty; [by apply prefix_app_r|].
    intros Heq. apply (f_equal length) in Heq. len.
Qed.

End Destination.

Section WritesAgain.

Context {A : Type} (key : A → path) (val : A → bytes).

Local Abbreviation writes := (foldl (λ (m : gmap path bytes) r, <[key r := val r]> m)).

(** Where some element writes, what was there before plays no role. *)
Lemma writes_lookup_indep (l : list A) (m m' : gmap path bytes) (k : path) :
  k ∈ key <$> l → writes m l !! k = writes m' l !! k.
Proof.
  revert m m'. induction l as [|r l IH]; intros m m' Hk.
  { by apply elem_of_nil in Hk. }
  simpl. destruct (decide (k ∈ key <$> l)) as [Hin|Hout]; [by apply IH|].
  rewrite fmap_cons in Hk. apply elem_of_cons in Hk as [->|Hk]; [|done].
  rewrite !writes_lookup_other by done. by rewrite !lookup_insert_eq.
Qed.

(** The last element that writes a key decides its value. *)
Lemma writes_lookup_last (l1 l2 : list A) (r : A) (m : gmap path bytes) :
  key r ∉ key <$> l2 → writes m (l1 ++ r :: l2) !! key r = Some (val r).
Proof.
  intros Hout. rewrite foldl_app. simpl.
  rewrite writes_lookup_other by done. by rewrite lookup_insert_eq.
Qed.

Lemma writes_lookup_is_Some (l : list A) (m : gmap path bytes) (k : path) :
  is_Some (writes m l !! k) ↔ is_Some (m !! k) ∨ k ∈ key <$> l.
Proof.
  revert m. induction l as [|r l IH]; intros m.
  { simpl. rewrite elem_of_nil. tauto. }
  rewrite fmap_cons, elem_of_cons. cbn [foldl]. rewrite IH.
  destruct (decide (k = key r)) as [->|Hne].
  - rewrite lookup_insert_eq. split; [tauto|]. intros _. left. by eexists.
  - rewrite lookup_insert_ne by done. tauto.
Qed.

(** Writing the same elements a second time changes nothing. *)
Lemma writes_twice (l : list A) (m : gmap path bytes) :
  writes (writes m l) l = writes m l.
Proof.
  apply map_eq. intros k. destruct (decide (k ∈ key <$> l)) as [Hin|Hout].
  - by apply writes_lookup_indep.
  - by rewrite writes_lookup_other.
Qed.

End WritesAgain.

(** ** The strings of a tile request *)


Lemma split_app_sep (sep : ascii) (s t : string) :
  split sep s = [s] → split sep (s +:+ String sep t) = s :: split sep t.
Proof.
  intros Hs. induction s as [|c s IH].
  { simpl. by case_decide. }
  apply split_single_inv in Hs as [Hc Hs].
  change (String c s +:+ String sep t) with (String c (s +:+ String sep t)).
  simpl. rewrite (IH Hs). by case_decide.
Qed.








(** ** Extraction: frame, overwriting, re-runs, and serving the result *)

Lemma extract_result_stat (output_dir : path) (fs2 : gmap path node)
    (meta : bytes) (r : tile_row) (rows : list tile_row) (n : node) :
  (∀ r q, r ∈ rows → q `prefix_of` parent (served_path output_dir r) →
          q ≠ [] → fs2 !! q = Some Dir) →
  r ∈ rows →
  <[output_dir ++ ["metadata.json"] := File meta]> fs2
    !! served_path output_dir r = Some n →
  stat (<[output_dir ++ ["metadata.json"] := File meta]> fs2)
    (served_path output_dir r) = Ok n.
Proof.
  intros Hpars Hr Hlook.
  rewrite stat_lookup, Hlook; [done|by destruct output_dir|].
  intros q Hq Hq0 Hneq.
  assert (Hqpar : q `prefix_of` parent (served_path output_dir r)).
  { rewrite served_path_tile_path in Hq, Hneq |- *. rewrite parent_snoc.
    by apply prefix_snoc_inv in Hq as [Hq|Hq]. }
  rewrite lookup_insert_ne; [by eapply Hpars|].
  intros Heq. rewrite <-Heq in Hqpar.
  rewrite served_path_tile_path, parent_snoc, <-!app_assoc in Hqpar.
  apply prefix_app_inv in Hqpar. by apply prefix_cons_inv_1 in Hqpar.
Qed.

(** X6: the extraction stays inside its output directory.  On a fresh
    destination it changes no entry outside [output_dir] nor [output_dir]
    itself; what it leaves inside is [metadata.json] and the tree below
    [tiles], in which directories lie at most two levels and regular files
    exactly three levels deep ([z/x/y.pbf]); and [metadata.json] holds the
    dump of the very dictionary that is returned. *)
Theorem extract_mbtiles_standard_frame
    (json_dump : gmap string string → bytes) (db : mbtiles)
    (output_dir : path) (fs : gmap path node) :
  fresh_destination fs output_dir →
  Forall (λ r, 0 ≤ zoom_level r) (tiles db) →
  ∃ fs' metadata,
    extract_mbtiles_standard json_dump db output_dir fs = Ok (fs', metadata) ∧
    (∀ p, p = output_dir ∨ ¬ output_dir `prefix_of` p → fs' !! p = fs !! p) ∧
    (∀ p, output_dir `prefix_of` p → is_Some (fs' !! p) →
       p = output_dir ∨ p = output_dir ++ ["metadata.json"] ∨
       output_dir ++ ["tiles"] `prefix_of` p) ∧
    tiles_shape (output_dir ++ ["tiles"]) fs' ∧
    read_bytes fs' (output_dir ++ ["metadata.json"]) = Ok (json_dump metadata).
Proof.
  intros Hfresh _.
  destruct (fresh_destination_ready output_dir fs Hfresh) as (Hup & Hbelow & Hmeta).
  destruct (extract_mbtiles_standard_disk json_dump output_dir db fs)
    as (fs2 & Hrun & Hinv2 & _ & Hout2 & _ & _ & _).
  { done. }
  { intros p n Hp HTp. by rewrite Hbelow in Hp. }
  { by rewrite Hmeta. }
  set (mp := output_dir ++ ["metadata.json"]) in *.
  set (T := output_dir ++ ["tiles"]) in *.
  assert (HoT : output_dir `prefix_of` T) by by apply prefix_app_r.
  assert (Hnot : ∀ p, ¬ output_dir `prefix_of` p → ¬ T `prefix_of` p).
  { intros p Hp HTp. apply Hp. by etrans. }
  assert (HTod : ¬ T `prefix_of` output_dir).
  { intros Hpre. apply prefix_length in Hpre. unfold T in Hpre. len. }
  eexists _, _. split; [exact Hrun|]. split_and!.
  - intros p [->|Hp].
    + rewrite lookup_insert_ne, Hout2; [done|done|].
      intros Heq. apply (f_equal length) in Heq. unfold mp in Heq. len.
    + rewrite lookup_insert_ne, Hout2; [done|by apply Hnot|].
      intros <-. apply Hp. by apply prefix_app_r.
  - intros p Hop Hsome.
    destruct (decide (p = mp)) as [->|Hmp]; [by right; left|].
    destruct (decide (T `prefix_of` p)) as [HTp|HTp]; [by right; right|].
    left. rewrite lookup_insert_ne, Hout2 in Hsome by done.
    destruct Hfresh as [_ Hempty].
    destruct (decide (p = output_dir)) as [->|Hne]; [done|].
    rewrite Hempty in Hsome by done. by destruct Hsome.
  - destruct Hinv2 as [Hup2 Hshape2]. split.
    + intros q Hq Hne. rewrite lookup_insert_ne; [by apply Hup2|].
      intros <-. by eapply metadata_path_not_above.
    + intros p n Hp HTp. rewrite lookup_insert_ne in Hp; [by eapply Hshape2|].
      intros <-. by eapply metadata_path_not_tiles.
  - unfold read_bytes. rewrite stat_lookup, lookup_insert_eq; [done| |].
    + unfold mp. by destruct output_dir.
    + intros q Hq Hq0 Hneq. destruct Hinv2 as [Hup2 _].
      unfold mp in Hq. apply prefix_snoc_inv in Hq as [Hq|Hq]; [|done].
      rewrite lookup_insert_ne by done. apply Hup2; [by etrans|done].
Qed.

Lemma extract_mbtiles_standard_frame_witness :
  let db := Mbtiles [TileRow 5 10 3 [Byte.x1f; Byte.x8b]] [("name", "contours")] in
  let fs : gmap path node := {[ ["out"] := Dir; ["etc"] := Dir ]} in
  fresh_destination fs ["out"] ∧
  Forall (λ r, 0 ≤ zoom_level r) (tiles db) ∧
  ∃ fs' metadata,
    extract_mbtiles_standard (λ _, [Byte.x7b; Byte.x7d]) db ["out"] fs
      = Ok (fs', metadata) ∧
    (∀ p, p = ["out"] ∨ ¬ ["out"] `prefix_of` p → fs' !! p = fs !! p) ∧
    read_bytes fs' (["out"] ++ ["metadata.json"]) = Ok [Byte.x7b; Byte.x7d].
Proof.
  intros db fs.
  assert (Hfresh : fresh_destination fs ["out"]).
  { split; [reflexivity|].
    intros p Hp Hne. apply lookup_insert_None. split; [|done].
    apply lookup_singleton_ne. intros <-. by apply prefix_cons_inv_1 in Hp. }
  assert (Hzoom : Forall (λ r, 0 ≤ zoom_level r) (tiles db)).
  { repeat constructor; simpl; lia. }
  split; [exact Hfresh|]. split; [exact Hzoom|].
  destruct (extract_mbtiles_standard_frame (λ _, [Byte.x7b; Byte.x7d]) db ["out"] fs
              Hfresh Hzoom) as (fs' & metadata & Hrun & Hframe & _ & _ & Hread).
  exists fs', metadata. split; [exact Hrun|]. split; [exact Hframe|exact Hread].
Defined.

Lemma length_remove_dups_fmap {A B C} `{EqDecision B, EqDecision C}
    (f : A → B) (g : A → C) (l : list A) :
  (∀ x y, f x = f y ↔ g x = g y) →
  length (remove_dups (f <$> l)) = length (remove_dups (g <$> l)).
Proof.
  intros Hfg. induction l as [|a l IH]; [done|].
  rewrite !fmap_cons. cbn [remove_dups].
  assert (Hiff : f a ∈ f <$> l ↔ g a ∈ g <$> l).
  { rewrite !list_elem_of_fmap. split; intros (y & Heq & Hy); exists y.
    - split; [by apply Hfg|done].
    - split; [by apply Hfg|done]. }
  destruct (decide_rel elem_of (f a) (f <$> l)) as [Hf|Hf],
           (decide_rel elem_of (g a) (g <$> l)) as [Hg|Hg]; simpl; tauto || lia.
Qed.

Lemma size_writes_empty {A} (key : A → path) (val : A → bytes) (l : list A) :
  size (foldl (λ (m : gmap path bytes) r, <[key r := val r]> m) ∅ l)
    = length (remove_dups (key <$> l)).
Proof.
  rewrite <-size_dom, <-(size_list_to_set (C := gset path)) by apply NoDup_remove_dups.
  f_equal. apply set_eq. intros k.
  rewrite elem_of_dom, elem_of_list_to_set, elem_of_remove_dups.
  rewrite writes_lookup_is_Some, lookup_empty.
  split; [intros [[? ?]|?]; done|by right].
Qed.

(** X7: rows that share an address overwrite each other, the last one
    winning.  After the extraction on a fresh destination the regular files
    below [tiles] are exactly the served paths of the rows, their number is
    the number of distinct addresses, and the file of an address holds the
    blob of the last row with that address. *)
Theorem extract_mbtiles_standard_last_write
    (json_dump : gmap string string → bytes) (db : mbtiles)
    (output_dir : path) (fs : gmap path node) :
  fresh_destination fs output_dir →
  Forall (λ r, 0 ≤ zoom_level r) (tiles db) →
  ∃ fs' metadata,
    extract_mbtiles_standard json_dump db output_dir fs = Ok (fs', metadata) ∧
    (∀ p, is_Some (files_under (output_dir ++ ["tiles"]) fs' !! p) ↔
          ∃ r, r ∈ tiles db ∧ p = served_path output_dir r) ∧
    size (files_under (output_dir ++ ["tiles"]) fs')
      = length (remove_dups (address <$> tiles db)) ∧
    (∀ l1 r l2, tiles db = l1 ++ r :: l2 → address r ∉ address <$> l2 →
       read_bytes fs' (served_path output_dir r) = Ok (tile_data r)).
Proof.
  intros Hfresh _.
  destruct (fresh_destination_ready output_dir fs Hfresh) as (Hup & Hbelow & Hmeta).
  destruct (extract_mbtiles_standard_disk json_dump output_dir db fs)
    as (fs2 & Hrun & Hinv2 & Hfiles2 & _ & _ & Hpars2 & _).
  { done. }
  { intros p n Hp HTp. by rewrite Hbelow in Hp. }
  { by rewrite Hmeta. }
  set (meta := json_dump (dict_of_pairs (metadata_rows db))) in *.
  assert (Hfiles : files_under (output_dir ++ ["tiles"])
                     (<[output_dir ++ ["metadata.json"] := File meta]> fs2)
            = foldl (λ m r, <[served_path output_dir r := tile_data r]> m) ∅ (tiles db)).
  { assert (Hnone : files_under (output_dir ++ ["tiles"]) fs = ∅).
    { apply map_eq. intros p. rewrite files_under_lookup, lookup_empty.
      case_decide as HTp; [|done]. by rewrite Hbelow. }
    rewrite <-Hnone, <-Hfiles2.
    apply map_eq. intros p. rewrite !files_under_lookup.
    case_decide as HTp; [|done]. rewrite lookup_insert_ne; [done|].
    intros <-. by eapply metadata_path_not_tiles. }
  eexists _, _. split; [exact Hrun|]. split_and!.
  - intros p. rewrite Hfiles, writes_lookup_is_Some, lookup_empty.
    rewrite list_elem_of_fmap. split.
    + intros [[? ?]|(r & -> & Hr)]; [done|]. by exists r.
    + intros (r & Hr & ->). right. by exists r.
  - rewrite Hfiles, size_writes_empty. apply length_remove_dups_fmap.
    intros r1 r2. split; [apply served_path_inj|].
    unfold served_path, address. by intros [= -> -> ->].
  - intros l1 r l2 Hrows Hlast.
    assert (Hr : r ∈ tiles db).
    { rewrite Hrows. apply elem_of_app. right. by left. }
    assert (Hlook : files_under (output_dir ++ ["tiles"])
                      (<[output_dir ++ ["metadata.json"] := File meta]> fs2)
                      !! served_path output_dir r = Some (tile_data r)).
    { rewrite Hfiles, Hrows. apply writes_lookup_last.
      intros (r' & Heq%served_path_inj & Hr')%list_elem_of_fmap.
      apply Hlast. rewrite Heq. by apply list_elem_of_fmap_2. }
    rewrite files_under_lookup in Hlook. case_decide; [|done].
    unfold read_bytes.
    destruct (_ !! served_path output_dir r) as [n|] eqn:Hn; [|done].
    rewrite (extract_result_stat output_dir fs2 meta r (tiles db) n Hpars2 Hr Hn).
    by destruct n; simplify_eq/=.
Qed.

Lemma extract_mbtiles_standard_last_write_witness :
  let db := Mbtiles [TileRow 5 10 3 [Byte.x01]; TileRow 5 10 3 [Byte.x02]] [] in
  let fs : gmap path node := {[ ["out"] := Dir ]} in
  fresh_destination fs ["out"] ∧
  Forall (λ r, 0 ≤ zoom_level r) (tiles db) ∧
  ∃ fs' metadata,
    extract_mbtiles_standard (λ _, []) db ["out"] fs = Ok (fs', metadata) ∧
    size (files_under (["out"] ++ ["tiles"]) fs') = 1%nat ∧
    read_bytes fs' (served_path ["out"] (TileRow 5 10 3 [Byte.x02]))
      = Ok [Byte.x02].
Proof.
  intros db fs.
  assert (Hfresh : fresh_destination fs ["out"]).
  { split; [reflexivity|].
    intros p Hp Hne. by apply lookup_singleton_ne. }
  assert (Hzoom : Forall (λ r, 0 ≤ zoom_level r) (tiles db)).
  { repeat constructor; simpl; lia. }
  split; [exact Hfresh|]. split; [exact Hzoom|].
  destruct (extract_mbtiles_standard_last_write (λ _, []) db ["out"] fs
              Hfresh Hzoom) as (fs' & metadata & Hrun & _ & Hsize & Hlast).
  exists fs', metadata. split; [exact Hrun|]. split; [exact Hsize|].
  apply (Hlast [TileRow 5 10 3 [Byte.x01]] (TileRow 5 10 3 [Byte.x02]) []);
    [reflexivity|]. apply not_elem_of_nil.
Defined.

(** X8: running the extraction a second time is harmless.  When the
    extraction of a container into a fresh destination has succeeded,
    extracting the same container into the same directory again succeeds,
    returns the same dictionary and leaves the disk exactly as it was. *)
Theorem extract_mbtiles_standard_rerun
    (json_dump : gmap string string → bytes) (db : mbtiles)
    (output_dir : path) (fs fs' : gmap path node)
    (metadata : gmap string string) :
  fresh_destination fs output_dir →
  Forall (λ r, 0 ≤ zoom_level r) (tiles db) →
  extract_mbtiles_standard json_dump db output_dir fs = Ok (fs', metadata) →
  extract_mbtiles_standard json_dump db output_dir fs' = Ok (fs', metadata).
Proof.
  intros Hfresh _ Hfirst.
  destruct (fresh_destination_ready output_dir fs Hfresh) as (Hup & Hbelow & Hmeta).
  destruct (extract_mbtiles_standard_disk json_dump output_dir db fs)
    as (fs2 & Hrun & Hinv2 & Hfiles2 & Hout2 & Hkeep2 & Hpars2 & _).
  { done. }
  { intros p n Hp HTp. by rewrite Hbelow in Hp. }
  { by rewrite Hmeta. }
  rewrite Hrun in Hfirst. injection Hfirst as <- <-.
  set (meta := json_dump (dict_of_pairs (metadata_rows db))) in *.
  set (mp := output_dir ++ ["metadata.json"]) in *.
  set (T := output_dir ++ ["tiles"]) in *.
  destruct Hinv2 as [Hup2 Hshape2].
  destruct (extract_mbtiles_standard_disk json_dump output_dir db
              (<[mp := File meta]> fs2))
    as (fs3 & Hrun3 & _ & Hfiles3 & Hout3 & Hkeep3 & _ & Hnew3).
  { intros q Hq Hne. rewrite lookup_insert_ne.
    - apply Hup2; [|done]. etrans; [done|by apply prefix_app_r].
    - intros <-. apply prefix_length in Hq. unfold mp in Hq. len. }
  { intros p n Hp HTp. rewrite lookup_insert_ne in Hp; [by eapply Hshape2|].
    intros <-. by eapply metadata_path_not_tiles. }
  { fold mp. by rewrite lookup_insert_eq. }
  fold mp T meta in Hrun3, Hfiles3, Hout3, Hnew3. rewrite Hrun3.
  do 2 f_equal. apply map_eq. intros p.
  destruct (decide (p = mp)) as [->|Hmp]; [by rewrite !lookup_insert_eq|].
  rewrite !lookup_insert_ne by done.
  destruct (decide (T `prefix_of` p)) as [HTp|HTp];
    [|by rewrite Hout3, lookup_insert_ne].
  assert (Hsame : files_under T fs3 !! p = files_under T fs2 !! p).
  { rewrite Hfiles3.
    assert (files_under T (<[mp := File meta]> fs2) = files_under T fs2) as ->.
    { apply map_eq. intros q. rewrite !files_under_lookup.
      case_decide as HTq; [|done]. rewrite lookup_insert_ne; [done|].
      intros <-. by eapply metadata_path_not_tiles. }
    rewrite Hfiles2. by rewrite writes_twice. }
  rewrite !files_under_lookup in Hsame. rewrite !decide_True in Hsame by done.
  destruct (fs2 !! p) as [[d|]|] eqn:Hp2.
  - destruct (fs3 !! p) as [[d'|]|]; by simplify_eq/=.
  - apply Hkeep3. by rewrite lookup_insert_ne.
  - destruct (fs3 !! p) as [[d'|]|] eqn:Hp3; [done| |done].
    exfalso. destruct (Hnew3 p Hp3) as [Hold|[->|(r & Hr & Hpre)]].
    + rewrite lookup_insert_ne in Hold by done. congruence.
    + rewrite Hup2 in Hp2; [done|done|]. unfold T. by destruct output_dir.
    + rewrite (Hpars2 r p Hr Hpre) in Hp2; [done|].
      intros ->. apply prefix_nil_inv in HTp. unfold T in HTp.
      by destruct output_dir.
Qed.

Lemma extract_mbtiles_standard_rerun_witness :
  let db := Mbtiles [TileRow 0 0 0 [Byte.x01]] [("name", "contours")] in
  let fs : gmap path node := {[ ["out"] := Dir ]} in
  let fs' : gmap path node :=
    {[ ["out"] := Dir; ["out"; "tiles"] := Dir; ["out"; "tiles"; "0"] := Dir;
       ["out"; "tiles"; "0"; "0"] := Dir;
       ["out"; "tiles"; "0"; "0"; "0.pbf"] := File [Byte.x01];
       ["out"; "metadata.json"] := File [] ]} in
  let metadata : gmap string string := {[ "name" := "contours" ]} in
  fresh_destination fs ["out"] ∧
  Forall (λ r, 0 ≤ zoom_level r) (tiles db) ∧
  extract_mbtiles_standard (λ _, []) db ["out"] fs = Ok (fs', metadata) ∧
  extract_mbtiles_standard (λ _, []) db ["out"] fs' = Ok (fs', metadata).
Proof.
  intros db fs fs' metadata.
  assert (Hfresh : fresh_destination fs ["out"]).
  { split; [reflexivity|].
    intros p Hp Hne. by apply lookup_singleton_ne. }
  assert (Hzoom : Forall (λ r, 0 ≤ zoom_level r) (tiles db)).
  { repeat constructor; simpl; lia. }
  assert (Hfirst : extract_mbtiles_standard (λ _, []) db ["out"] fs
                     = Ok (fs', metadata)).
  { vm_compute. do 2 f_equal. }
  split; [exact Hfresh|]. split; [exact Hzoom|]. split; [exact Hfirst|].
  exact (extract_mbtiles_standard_rerun (λ _, []) db ["out"] fs fs' metadata
           Hfresh Hzoom Hfirst).
Defined.



(** ** The retrieval service: every answer *)


Lemma serve_file_cases (static_dir : path) (fs : gmap path node)
    (filename content_type : string) :
  match stat fs (static_dir // filename) with
  | Ok (File data) =>
      serve_file static_dir fs filename content_type
        = Ok (Reply 200
                [("Content-Type", content_type);
                 ("Access-Control-Allow-Origin", "*");
                 ("Content-Length", pretty (length data))]
                data)
  | Ok Dir => serve_file static_dir fs filename content_type = Raise IsADirectoryError
  | Raise _ =>
      serve_file static_dir fs filename content_type
        = Ok (SendError 404 (filename +:+ " not found"))
  end.
Proof.
  unfold serve_file, exists_, read_bytes.
  by destruct (stat fs _) as [[data|]|e].
Qed.



(** Writing a file, then looking at it. *)
Lemma write_bytes_stat (fs fs' : gmap path node) (p : path) (data : bytes) :
  write_bytes fs p data = Ok fs' →
  fs' = <[p := File data]> fs ∧ stat fs' p = Ok (File data).
Proof.
  unfold write_bytes. intros Hrun.
  apply bind_Ok in Hrun as (n & Hpar & Hrun).
  destruct n as [d|]; [done|].
  destruct (decide (p = [])) as [->|Hne]; [done|].
  destruct (exists_last Hne) as (p0 & c0 & ->).
  rewrite parent_snoc in Hpar.
  assert (fs' = <[p0 ++ [c0] := File data]> fs) as ->.
  { by destruct (stat fs (p0 ++ [c0])) as [[|]|]; simplify_eq. }
  split; [done|].
  rewrite stat_lookup, lookup_insert_eq; [done|done|].
  intros q Hq Hq0 Hneq. rewrite lookup_insert_ne by done.
  apply prefix_snoc_inv in Hq as [Hq|Hq]; [|done].
  by apply (stat_dir_prefixes fs p0).
Qed.

(** X11: the descriptor that the setup writes is the one the test server
    hands out.  When [create_tilejson] has written [output_dir/tilejson.json],
    a server whose tiles directory is [output_dir/tiles] and whose static
    directory is the default (the parent of the tiles directory) answers
    [/tilejson.json] and [/contours] with status 200, content type
    [application/json] and exactly the dumped descriptor. *)
Theorem create_tilejson_served
    (json_loads : string → option json) (tilejson_dump : tilejson → bytes)
    (metadata : gmap string string) (base_url : string)
    (output_dir : path) (fs fs' : gmap path node) (url : string) :
  create_tilejson json_loads tilejson_dump metadata base_url
    (output_dir // "tilejson.json") fs = Ok fs' →
  url = "/tilejson.json" ∨ url = "/contours" →
  ∃ tj,
    build_tilejson json_loads metadata base_url = Ok tj ∧
    do_GET (output_dir // "tiles") (parent (output_dir // "tiles")) fs' url
      = Ok (Reply 200
              [("Content-Type", "application/json");
               ("Access-Control-Allow-Origin", "*");
               ("Content-Length", pretty (length (tilejson_dump tj)))]
              (tilejson_dump tj)).
Proof.
  unfold create_tilejson. intros Hrun Hurl.
  apply bind_Ok in Hrun as (tj & Hbuild & Hwrite).
  apply write_bytes_stat in Hwrite as [_ Hstat].
  exists tj. split; [done|].
  change (output_dir // "tiles") with (output_dir ++ ["tiles"]).
  rewrite parent_snoc.
  pose proof (serve_file_cases output_dir fs' "tilejson.json" "application/json")
    as Hcase.
  rewrite Hstat in Hcase.
  destruct Hurl as [-> | ->]; exact Hcase.
Qed.

Lemma create_tilejson_served_witness :
  let fs : gmap path node := {[ ["out"] := Dir ]} in
  let fs' : gmap path node :=
    {[ ["out"] := Dir; ["out"; "tilejson.json"] := File [Byte.x7b; Byte.x7d] ]} in
  create_tilejson (λ _, None) (λ _, [Byte.x7b; Byte.x7d]) ∅ "http://localhost:8080/contours"
    (["out"] // "tilejson.json") fs = Ok fs' ∧
  ("/contours" = "/tilejson.json" ∨ "/contours" = "/contours") ∧
  ∃ hs, do_GET (["out"] // "tiles") (parent (["out"] // "tiles")) fs' "/contours"
          = Ok (Reply 200 hs [Byte.x7b; Byte.x7d]).
Proof.
  intros fs fs'.
  assert (Hrun : create_tilejson (λ _, None) (λ _, [Byte.x7b; Byte.x7d]) ∅
                   "http://localhost:8080/contours"
                   (["out"] // "tilejson.json") fs = Ok fs').
  { vm_compute. reflexivity. }
  assert (Hurl : "/contours" = "/tilejson.json" ∨ "/contours" = "/contours")
    by (right; reflexivity).
  split; [exact Hrun|]. split; [exact Hurl|].
  destruct (create_tilejson_served (λ _, None) (λ _, [Byte.x7b; Byte.x7d]) ∅
              "http://localhost:8080/contours" ["out"] fs fs' "/contours"
              Hrun Hurl) as (tj & _ & Hget).
  eexists. exact Hget.
Defined.

(** ** [main]: preparing the destination *)

Lemma mkdir_from_no_file (rest : list string) (fs fs' : gmap path node) (base : path) :
  mkdir_from fs base rest = Ok fs' →
  ∀ q d, q `prefix_of` base ++ rest → (length base < length q)%nat →
         fs !! q ≠ Some (File d).
Proof.
  revert fs base. induction rest as [|c rest IH]; intros fs base Hrun q d Hq Hlen.
  { apply prefix_length in Hq. rewrite app_nil_r in Hq. lia. }
  assert (Hsplit : base ++ c :: rest = (base ++ [c]) ++ rest)
    by by rewrite <-app_assoc.
  assert (Hp : base ++ [c] `prefix_of` base ++ c :: rest)
    by (rewrite Hsplit; by apply prefix_app_r).
  simpl in Hrun.
  destruct (decide (length q = length (base ++ [c]))) as [Heq|Hne].
  - assert (q = base ++ [c]) as -> by by eapply prefix_same_length.
    destruct (fs !! (base ++ [c])) as [[d'|]|]; [by destruct rest|done|done].
  - assert (Hlen' : (length (base ++ [c]) < length q)%nat) by len.
    rewrite Hsplit in Hq.
    destruct (fs !! (base ++ [c])) as [[d'|]|] eqn:Hlook; [by destruct rest| |].
    + by apply (IH fs (base ++ [c]) Hrun).
    + pose proof (IH _ _ Hrun q d Hq Hlen') as Hnf.
      rewrite lookup_insert_ne in Hnf; [done|]. intros <-. lia.
Qed.

(** A successful [mkdir(parents=True, exist_ok=True)]. *)
Lemma mkdir_parents_Ok (fs fs' : gmap path node) (p : path) :
  mkdir_parents fs p = Ok fs' →
  stat fs' p = Ok Dir ∧
  (∀ q, fs' !! q = fs !! q ∨
        (fs !! q = None ∧ fs' !! q = Some Dir ∧ q `prefix_of` p ∧ q ≠ [])).
Proof.
  unfold mkdir_parents. intros Hrun.
  destruct (mkdir_from_spec p fs []) as (fs'' & Hrun' & Hdirs & Hframe).
  { by apply (mkdir_from_no_file p fs fs' []). }
  rewrite Hrun in Hrun'. injection Hrun' as <-. simpl in *. split.
  - destruct (decide (p = [])) as [->|Hne]; [done|].
    rewrite stat_lookup, Hdirs; [done|done| |done|].
    + destruct p; [done|simpl; lia].
    + intros q Hq Hq0 _. apply Hdirs; [done|]. destruct q; [done|simpl; lia].
  - intros q. destruct (Hframe q) as [?|(? & ? & ? & Hlen)]; [by left|right].
    split_and!; [done..|]. intros ->. simpl in Hlen. lia.
Qed.

Lemma elem_of_iterdir (fs : gmap path node) (p : path) (entries : list path) :
  iterdir fs p = Ok entries →
  stat fs p = Ok Dir ∧
  ∀ q, q ∈ entries ↔ is_Some (fs !! q) ∧ q ≠ [] ∧ parent q = p.
Proof.
  unfold iterdir. intros Hrun. apply bind_Ok in Hrun as (n & Hstat & Hrun).
  destruct n as [d|]; [done|]. injection Hrun as <-. split; [done|].
  intros q. rewrite list_elem_of_filter, list_elem_of_fmap. split.
  - intros [Hq ([q' n] & -> & Hin%elem_of_map_to_list)]. split; [by eexists|done].
  - intros ([n Hn] & Hq). split; [done|]. exists (q, n).
    split; [done|]. by apply elem_of_map_to_list.
Qed.

(** In a tree, a directory without entries has nothing below it. *)
Lemma is_tree_no_entries (fs : gmap path node) (d : path) :
  is_tree fs →
  (∀ q, is_Some (fs !! q) → q ≠ [] → parent q ≠ d) →
  ∀ p, d `prefix_of` p → p ≠ d → fs !! p = None.
Proof.
  intros Htree Hnone p [rest ->] Hne.
  destruct rest as [|c rest]; [by rewrite app_nil_r in Hne|].
  apply eq_None_not_Some. intros [n Hn].
  destruct (Htree _ _ Hn) as [_ Hup].
  apply (Hnone (d ++ [c])); [| by destruct d | apply parent_snoc].
  destruct (decide (d ++ [c] = d ++ c :: rest)) as [->|Hneq]; [by eexists|].
  rewrite (Hup (d ++ [c])); [by eexists| |by destruct d|done].
  exists rest. by rewrite <-app_assoc.
Qed.

Lemma stat_Ok_lookup (fs : gmap path node) (p : path) :
  p ≠ [] → (∀ q, q `prefix_of` p → q ≠ [] → fs !! q = Some Dir) →
  stat fs p = Ok Dir.
Proof.
  intros Hne Hdirs. rewrite stat_lookup, Hdirs; [done|done|done|done|].
  intros q Hq Hq0 _. by apply Hdirs.
Qed.

Lemma fresh_destination_extracts
    (json_dump : gmap string string → bytes) (db : mbtiles)
    (output_dir : path) (fs : gmap path node) :
  fresh_destination fs output_dir →
  ∃ fs' metadata,
    extract_mbtiles_standard json_dump db output_dir fs = Ok (fs', metadata).
Proof.
  intros Hfresh.
  destruct (fresh_destination_ready output_dir fs Hfresh) as (Hup & Hbelow & Hmeta).
  destruct (extract_mbtiles_standard_disk json_dump output_dir db fs)
    as (fs2 & Hrun & _).
  { done. }
  { intros p n Hp HTp. by rewrite Hbelow in Hp. }
  { by rewrite Hmeta. }
  by eexists _, _.
Qed.

(** X12: the guard of [main].  On a disk that is a tree: without [--force]
    an output directory that has an entry makes [main] exit with an error,
    as does a missing container file; and whenever the guard lets [main]
    continue, the disk it hands on has a fresh destination (the output
    directory exists and is empty), so that writing the rows of a container
    into it meets no file-system error; every entry outside the output
    directory is still there, and without [--force] every entry whatsoever
    is.  A container file that lies inside the output directory does not
    survive a forced run: it is gone before it is read. *)
Theorem prepare_destination_spec
    (json_dump : gmap string string → bytes) (db : mbtiles)
    (mbtiles_path output_dir : path) (force : bool) (fs : gmap path node) :
  is_tree fs →
  (exists_ fs mbtiles_path = false →
     ∃ message, prepare_destination mbtiles_path output_dir force fs
                  = Raised (SystemExit message)) ∧
  (force = false → exists_ fs mbtiles_path = true →
   stat fs output_dir = Ok Dir → (∃ c, is_Some (fs !! (output_dir ++ [c]))) →
     ∃ message, prepare_destination mbtiles_path output_dir force fs
                  = Raised (SystemExit message)) ∧
  (∀ fs1, prepare_destination mbtiles_path output_dir force fs = Done fs1 →
     fresh_destination fs1 output_dir ∧
     (∀ p n, fs !! p = Some n → force = false ∨ ¬ output_dir `prefix_of` p →
             fs1 !! p = Some n) ∧
     (output_dir `prefix_of` mbtiles_path → mbtiles_path ≠ output_dir →
      exists_ fs1 mbtiles_path = false) ∧
     ∃ fs2 metadata,
       extract_mbtiles_standard json_dump db output_dir fs1 = Ok (fs2, metadata)).
Proof.
  intros Htree. unfold prepare_destination. split_and!.
  - intros ->. by eexists.
  - intros -> -> Hstat [c Hc]. simpl. unfold exists_. rewrite Hstat.
    unfold iterdir. rewrite Hstat. simpl.
    rewrite bool_decide_eq_true_2; [by eexists|].
    intros Hnil.
    assert (Hin : output_dir ++ [c] ∈
              filter (λ q, q ≠ [] ∧ parent q = output_dir) (map_to_list fs).*1).
    { apply list_elem_of_filter. split.
      - split; [by destruct output_dir|apply parent_snoc].
      - destruct Hc as [n Hn]. apply list_elem_of_fmap.
        exists (output_dir ++ [c], n). split; [done|].
        by apply elem_of_map_to_list. }
    rewrite Hnil in Hin. by apply elem_of_nil in Hin.
  - intros fs1 Hrun.
    assert (Hgoal : fresh_destination fs1 output_dir ∧
              (∀ p n, fs !! p = Some n →
                 force = false ∨ ¬ output_dir `prefix_of` p → fs1 !! p = Some n)).
    { destruct (exists_ fs mbtiles_path); simpl in Hrun; [|done].
      destruct (exists_ fs output_dir) eqn:Hex.
      - destruct (iterdir fs output_dir) as [entries|e] eqn:Hit;
          simpl in Hrun; [|done].
        apply elem_of_iterdir in Hit as [Hstat Hent].
        case_bool_decide as Hne; simpl in Hrun.
        + destruct force; [|done]. unfold rmtree in Hrun.
          rewrite Hstat in Hrun. simpl in Hrun.
          destruct (decide (output_dir = [])) as [->|Hod]; [done|].
          simpl in Hrun.
          destruct (mkdir_parents _ output_dir) as [fs1'|e] eqn:Hmk;
            simpl in Hrun; [|done].
          injection Hrun as ->.
          apply mkdir_parents_Ok in Hmk as [Hstat1 Hframe]. split.
          * split; [done|]. intros p Hp Hneq.
            destruct (Hframe p) as [->|(_ & _ & Hpre & _)].
            -- apply map_lookup_filter_None. right. intros n _ Hnot. by apply Hnot.
            -- exfalso. apply Hneq. by apply (anti_symm prefix).
          * intros p n Hp [?|Hout]; [done|].
            destruct (Hframe p) as [->|(Hnone & _)].
            -- by apply map_lookup_filter_Some.
            -- apply map_lookup_filter_None in Hnone as [Hnone|Hnone]; [congruence|].
               by destruct (Hnone n Hp).
        + assert (Hnil : entries = []) by (destruct entries; [done|by destruct Hne]).
          subst entries.
          destruct (mkdir_parents fs output_dir) as [fs1'|e] eqn:Hmk;
            simpl in Hrun; [|done].
          injection Hrun as ->.
          apply mkdir_parents_Ok in Hmk as [Hstat1 Hframe].
          assert (Hsame : ∀ p, fs1 !! p = fs !! p).
          { intros p. destruct (Hframe p) as [?|(Hnone & _ & Hpre & Hp0)]; [done|].
            rewrite (stat_dir_prefixes fs output_dir Hstat p) in Hnone; done. }
          split.
          * split; [done|]. intros p Hp Hneq. rewrite Hsame.
            apply (is_tree_no_entries fs output_dir); [done| |done|done].
            intros q Hq Hq0 Hpar. apply (elem_of_nil q). by apply Hent.
          * intros p n Hp _. by rewrite Hsame.
      - simpl in Hrun.
        destruct (mkdir_parents fs output_dir) as [fs1'|e] eqn:Hmk;
          simpl in Hrun; [|done].
        injection Hrun as ->.
        apply mkdir_parents_Ok in Hmk as [Hstat1 Hframe].
        assert (Hod : output_dir ≠ []).
        { intros ->. by unfold exists_ in Hex. }
        split.
        * split; [done|]. intros p Hp Hneq.
          destruct (Hframe p) as [->|(_ & _ & Hpre & _)].
          -- apply eq_None_not_Some. intros [n Hn].
             destruct (Htree _ _ Hn) as [_ Hup].
             unfold exists_ in Hex.
             rewrite (stat_Ok_lookup fs output_dir) in Hex; [done|done|].
             intros q Hq Hq0. apply Hup; [by etrans|done|].
             intros ->. apply Hneq. by apply (anti_symm prefix).
          -- exfalso. apply Hneq. by apply (anti_symm prefix).
        * intros p n Hp _.
          destruct (Hframe p) as [->|(Hnone & _)]; [done|congruence]. }
    destruct Hgoal as [Hfresh Hkeep]. split_and!; [done|done| |].
    + intros Hpre Hne. unfold exists_.
      destruct (stat fs1 mbtiles_path) as [n|e] eqn:Hstat; [|done].
      apply stat_dirs in Hstat as [Hn _].
      * destruct Hfresh as [_ Hempty]. by rewrite Hempty in Hn.
      * intros ->. apply prefix_nil_inv in Hpre. by subst.
    + by apply fresh_destination_extracts.
Qed.

Lemma prepare_destination_spec_witness :
  let fs : gmap path node :=
    {[ ["in.mbtiles"] := File []; ["out"] := Dir; ["out"; "old"] := File [] ]} in
  let fs1 : gmap path node := {[ ["in.mbtiles"] := File []; ["out"] := Dir ]} in
  is_tree fs ∧
  (∃ message, prepare_destination ["in.mbtiles"] ["out"] false fs
                = Raised (SystemExit message)) ∧
  prepare_destination ["in.mbtiles"] ["out"] true fs = Done fs1 ∧
  fresh_destination fs1 ["out"].
Proof.
  intros fs fs1.
  assert (Htree : is_tree fs).
  { intros p n Hp.
    apply lookup_insert_Some in Hp as [[<- _]|[_ Hp]].
    { split; [done|]. intros q Hq Hq0 Hne. exfalso.
      destruct q as [|c q]; [done|].
      pose proof (prefix_cons_inv_1 _ _ _ _ Hq) as ->.
      apply prefix_cons_inv_2, prefix_nil_inv in Hq. by subst. }
    apply lookup_insert_Some in Hp as [[<- _]|[_ Hp]].
    { split; [done|]. intros q Hq Hq0 Hne. exfalso.
      destruct q as [|c q]; [done|].
      pose proof (prefix_cons_inv_1 _ _ _ _ Hq) as ->.
      apply prefix_cons_inv_2, prefix_nil_inv in Hq. by subst. }
    apply lookup_singleton_Some in Hp as [<- _]. split; [done|].
    intros q Hq Hq0 Hne.
    destruct q as [|c q]; [done|].
    pose proof (prefix_cons_inv_1 _ _ _ _ Hq) as ->.
    apply prefix_cons_inv_2 in Hq.
    destruct q as [|c q]; [done|].
    pose proof (prefix_cons_inv_1 _ _ _ _ Hq) as ->.
    apply prefix_cons_inv_2, prefix_nil_inv in Hq. by subst. }
  split; [exact Htree|]. split.
  - apply (proj1 (proj2 (prepare_destination_spec (λ _, []) (Mbtiles [] [])
                           ["in.mbtiles"] ["out"] false fs Htree)));
      [reflexivity|reflexivity|reflexivity|].
    exists "old". by eexists.
  - assert (Hrun : prepare_destination ["in.mbtiles"] ["out"] true fs = Done fs1).
    { vm_compute. reflexivity. }
    split; [exact Hrun|].
    exact (proj1 (proj2 (proj2 (prepare_destination_spec (λ _, []) (Mbtiles [] [])
                                  ["in.mbtiles"] ["out"] true fs Htree)) fs1 Hrun)).
Defined.

(** ** Downloading terrain tiles *)

Lemma split_pretty_N_go_sep (sep : ascii) (x : N) (s : string) :
  (∀ d, pretty_N_char d ≠ sep) →
  split sep s = [s] → split sep (pretty_N_go x s) = [pretty_N_go x s].
Proof.
  intros Hsep. revert s. induction (N.lt_wf_0 x) as [x _ IH]; intros s Hs.
  destruct (decide (x = 0)%N) as [->|Hx]; [by rewrite pretty_N_go_0|].
  rewrite pretty_N_go_step by by apply N.neq_0_lt_0.
  apply IH; [apply N.div_lt; [by apply N.neq_0_lt_0|done]|].
  apply split_cons_single; auto.
Qed.

Lemma split_pretty_Z_sep (sep : ascii) (z : Z) :
  (∀ d, pretty_N_char d ≠ sep) → sep ≠ "-"%char →
  split sep (pretty z) = [pretty z].
Proof.
  intros Hsep Hminus.
  assert (HN : ∀ x : N, split sep (pretty x) = [pretty x]).
  { intros x. unfold pretty, pretty_N. case_decide.
    - apply (split_cons_single sep "0" ""); [apply (Hsep 0%N)|done].
    - by apply split_pretty_N_go_sep. }
  destruct z as [|q|q]; unfold pretty, pretty_Z.
  - apply (split_cons_single sep "0" ""); [apply (Hsep 0%N)|done].
  - apply (HN (Npos q)).
  - apply (split_single_app sep "-"); [|apply (HN (Npos q))].
    apply split_cons_single; [done|done].
Qed.

Lemma pretty_N_char_not_underscore (d : N) : pretty_N_char d ≠ "_"%char.
Proof. unfold pretty_N_char. by repeat case_match. Qed.

Lemma split_terrain_file_name (z x y : Z) :
  split "_" (terrain_file_name (z, x, y))
    = [pretty z; pretty x; pretty y +:+ ".tif"].
Proof.
  unfold terrain_file_name.
  change (split "_" (pretty z +:+ String "_"
            (pretty x +:+ String "_" (pretty y +:+ ".tif")))
          = [pretty z; pretty x; pretty y +:+ ".tif"]).
  assert (Hz : ∀ v : Z, split "_" (pretty v) = [pretty v]).
  { intros v. apply split_pretty_Z_sep; [apply pretty_N_char_not_underscore|done]. }
  rewrite (split_app_sep "_" (pretty z)) by apply Hz.
  rewrite (split_app_sep "_" (pretty x)) by apply Hz.
  rewrite split_single_app; [done|apply Hz|done].
Qed.

(** Distinct tiles are kept under distinct names. *)
Lemma terrain_file_name_inj (t1 t2 : Z * Z * Z) :
  terrain_file_name t1 = terrain_file_name t2 → t1 = t2.
Proof.
  destruct t1 as [[z1 x1] y1], t2 as [[z2 x2] y2]. intros Heq.
  apply (f_equal (split "_")) in Heq. rewrite !split_terrain_file_name in Heq.
  injection Heq as Hz Hx Hy. apply string_app_inj_r in Hy.
  apply (inj pretty) in Hz, Hx, Hy. by subst.
Qed.

Lemma terrain_file_path (tiles_dir : path) (t : Z * Z * Z) :
  tiles_dir // terrain_file_name t = tiles_dir ++ [terrain_file_name t].
Proof.
  destruct t as [[z x] y]. apply path_join_component.
  - unfold terrain_file_name.
    apply split_single_app; [apply split_pretty_Z|].
    apply (split_single_app "/" "_"); [done|].
    apply split_single_app; [apply split_pretty_Z|].
    apply (split_single_app "/" "_"); [done|].
    apply split_single_app; [apply split_pretty_Z|done].
  - unfold terrain_file_name. destruct (pretty_Z_head z) as (c & rest & -> & _). done.
  - unfold terrain_file_name. destruct (pretty_Z_head z) as (c & rest & -> & Hc).
    intros [= ? ?]. congruence.
Qed.

Lemma NoDup_get_tiles_for_bbox (bbox : R * R * R * R) (zoom : Z) :
  NoDup (get_tiles_for_bbox bbox zoom).
Proof.
  destruct bbox as [[[west south] east] north].
  rewrite get_tiles_for_bbox_loops.
  apply NoDup_rectangle; apply NoDup_py_range.
Qed.

Section DownloadLoop.

Variable curl : string → path → gmap path node → bool * gmap path node.
Variable T : path.

Local Abbreviation file_of t := (T ++ [terrain_file_name t]).

(** Whatever [curl] does: one step appends the file of its tile to
    [downloaded] or leaves the list alone. *)
Lemma download_tile_list (fs fs' : gmap path node) (dl dl' : list path)
    (t : Z * Z * Z) :
  download_tile curl T (fs, dl) t = Ok (fs', dl') →
  dl' = dl ++ [file_of t] ∨ dl' = dl.
Proof.
  unfold download_tile. rewrite terrain_file_path.
  destruct (exists_ fs _); [intros [= <- <-]; by left|].
  destruct (curl _ _ fs) as [[|] fs2]; [intros [= <- <-]; by left|].
  destruct (exists_ fs2 _); [|intros [= <- <-]; by right].
  destruct (unlink fs2 _); simpl; [|done]. intros [= <- <-]. by right.
Qed.

Lemma download_loop_list (l : list (Z * Z * Z)) (fs fs' : gmap path node)
    (dl dl' : list path) :
  for_each (download_tile curl T) l (fs, dl) = Ok (fs', dl') →
  ∃ new, dl' = dl ++ new ∧ new `sublist_of` ((λ t, file_of t) <$> l).
Proof.
  revert fs dl. induction l as [|t l IH]; intros fs dl Hrun.
  { injection Hrun as <- <-. exists []. by rewrite app_nil_r. }
  simpl in Hrun. apply bind_Ok in Hrun as ([fs1 dl1] & Hstep & Hrun).
  destruct (IH _ _ Hrun) as (new & -> & Hsub).
  destruct (download_tile_list _ _ _ _ _ Hstep) as [-> | ->].
  - exists (file_of t :: new). rewrite <-app_assoc. split; [done|].
    rewrite fmap_cons. by apply sublist_skip.
  - exists new. split; [done|]. rewrite fmap_cons. by apply sublist_cons.
Qed.

(** One step when the tiles directory is there and [curl] touches nothing
    but its output file, at which it leaves no directory. *)
Hypothesis curl_frame : ∀ url p fs,
  (∀ q, q ≠ p → (curl url p fs).2 !! q = fs !! q) ∧
  (fs !! p = None → (curl url p fs).2 !! p ≠ Some Dir).

Lemma download_tile_spec (fs : gmap path node) (dl : list path) (t : Z * Z * Z) :
  (∀ q, q `prefix_of` T → q ≠ [] → fs !! q = Some Dir) →
  ∃ fs' new,
    download_tile curl T (fs, dl) t = Ok (fs', dl ++ new) ∧
    (∀ q, q ≠ file_of t → fs' !! q = fs !! q) ∧
    (new = [file_of t] ∨ (new = [] ∧ fs' !! file_of t = None)) ∧
    (∀ n, fs !! file_of t = Some n → new = [file_of t] ∧ fs' !! file_of t = Some n).
Proof.
  intros Hdirs. unfold download_tile. rewrite terrain_file_path.
  assert (Hstat : ∀ fs0 : gmap path node,
            (∀ q, q ≠ file_of t → fs0 !! q = fs !! q) →
            stat fs0 (file_of t) = match fs0 !! file_of t with
                                   | Some n => Ok n
                                   | None => Raise FileNotFoundError
                                   end).
  { intros fs0 Hsame. apply stat_lookup; [by destruct T|].
    intros q Hq Hq0 Hne. rewrite Hsame by done.
    apply prefix_snoc_inv in Hq as [Hq|Hq]; [by apply Hdirs|done]. }
  unfold exists_ at 1. rewrite (Hstat fs) by done.
  destruct (fs !! file_of t) as [n|] eqn:Hlook.
  { exists fs, [file_of t]. split_and!; [done|done|by left|].
    intros n' [= <-]. done. }
  destruct (curl_frame (terrain_url t) (file_of t) fs) as [Hframe Hnodir].
  specialize (Hnodir Hlook).
  destruct (curl _ _ fs) as [ok fs2]. simpl in Hframe, Hnodir.
  destruct ok.
  { exists fs2, [file_of t]. split_and!; [done|done|by left|done]. }
  unfold exists_, unlink. rewrite (Hstat fs2) by done.
  destruct (fs2 !! file_of t) as [[d|]|] eqn:Hlook2; [|done|].
  - exists (delete (file_of t) fs2), []. simpl. rewrite app_nil_r.
    split_and!; [done| |right|done].
    + intros q Hq. rewrite lookup_delete_ne by done. by apply Hframe.
    + split; [done|]. by rewrite lookup_delete_eq.
  - exists fs2, []. rewrite app_nil_r. split_and!; [done|done|by right|done].
Qed.

Lemma download_loop_spec (l : list (Z * Z * Z)) (fs : gmap path node)
    (dl : list path) :
  NoDup l →
  (∀ q, q `prefix_of` T → q ≠ [] → fs !! q = Some Dir) →
  ∃ fs' new,
    for_each (download_tile curl T) l (fs, dl) = Ok (fs', dl ++ new) ∧
    (∀ q, (∀ t, t ∈ l → q ≠ file_of t) → fs' !! q = fs !! q) ∧
    (∀ t, t ∈ l → file_of t ∈ new ∨ fs' !! file_of t = None) ∧
    (∀ t n, t ∈ l → fs !! file_of t = Some n →
       file_of t ∈ new ∧ fs' !! file_of t = Some n).
Proof.
  revert fs dl. induction l as [|t l IH]; intros fs dl Hnd Hdirs.
  { exists fs, []. rewrite app_nil_r.
    split_and!; [done|done|intros t Ht|intros t n Ht]; by apply elem_of_nil in Ht. }
  apply NoDup_cons in Hnd as [Ht Hnd].
  destruct (download_tile_spec fs dl t Hdirs) as (fs1 & new1 & Hstep & Hframe1 & Hnew1 & Hold1).
  assert (Hother : ∀ t', t' ∈ l → file_of t' ≠ file_of t).
  { intros t' Ht' Heq. apply app_inv_head in Heq. injection Heq as Heq.
    apply terrain_file_name_inj in Heq. by subst. }
  destruct (IH fs1 (dl ++ new1) Hnd) as (fs' & new & Hrun & Hframe & Hnew & Hold).
  { intros q Hq Hq0. rewrite Hframe1; [by apply Hdirs|].
    intros ->. apply prefix_length in Hq. len. }
  exists fs', (new1 ++ new). cbn [for_each]. rewrite Hstep. simpl.
  rewrite app_assoc. split_and!; [done| | |].
  - intros q Hq. rewrite Hframe, Hframe1; [done| |].
    + apply Hq. by left.
    + intros t' Ht'. apply Hq. by right.
  - intros t' [->|Ht']%elem_of_cons.
    + destruct Hnew1 as [->|[-> Hnone]]; [left; by left|right].
      rewrite Hframe; [done|]. intros t' Ht' Heq. by apply (Hother t').
    + destruct (Hnew t' Ht') as [?|?]; [left|by right].
      apply elem_of_app. by right.
  - intros t' n [->|Ht']%elem_of_cons Hn.
    + destruct (Hold1 n Hn) as [-> Hkeep]. split; [by left|].
      rewrite Hframe; [done|]. intros t' Ht' Heq. by apply (Hother t').
    + rewrite <-Hframe1 in Hn by by apply Hother.
      destruct (Hold t' n Ht' Hn) as [? ?]. split; [|done].
      apply elem_of_app. by right.
Qed.

End DownloadLoop.

(** X13: whatever the downloads do, the list that [download_terrain_tiles]
    returns names tiles of the box only, each at most once and in the order
    of [get_tiles_for_bbox]: it is a sublist of the paths
    [output_dir/terrain_tiles/{z}_{x}_{y}.tif] of the tiles, so it is never
    longer than the tile list.  The standalone script has the same
    function over the same tile list. *)
Theorem download_terrain_tiles_list
    (curl : string → path → gmap path node → bool * gmap path node)
    (bbox : R * R * R * R) (output_dir : path) (zoom : Z)
    (fs fs' : gmap path node) (downloaded : list path) :
  download_terrain_tiles curl bbox output_dir zoom fs = Ok (fs', downloaded) →
  downloaded `sublist_of`
    ((λ t, output_dir ++ ["terrain_tiles"; terrain_file_name t])
       <$> get_tiles_for_bbox bbox zoom) ∧
  NoDup downloaded ∧
  (length downloaded ≤ length (get_tiles_for_bbox bbox zoom))%nat ∧
  Standalone.get_tiles_for_bbox bbox zoom = get_tiles_for_bbox bbox zoom.
Proof.
  unfold download_terrain_tiles.
  change (output_dir // "terrain_tiles") with (output_dir ++ ["terrain_tiles"]).
  intros Hrun. apply bind_Ok in Hrun as (fs1 & _ & Hrun).
  apply download_loop_list in Hrun as (new & -> & Hsub). simpl.
  assert (Hsub' : new `sublist_of`
            ((λ t, output_dir ++ ["terrain_tiles"; terrain_file_name t])
               <$> get_tiles_for_bbox bbox zoom)).
  { assert ((λ t, output_dir ++ ["terrain_tiles"; terrain_file_name t])
              <$> get_tiles_for_bbox bbox zoom
            = (λ t, (output_dir ++ ["terrain_tiles"]) ++ [terrain_file_name t])
                <$> get_tiles_for_bbox bbox zoom) as ->; [|done].
    apply list_fmap_ext. intros i t _. by rewrite <-app_assoc. }
  split_and!.
  - done.
  - eapply sublist_NoDup; [|exact Hsub'].
    apply NoDup_fmap_2_strong; [|apply NoDup_get_tiles_for_bbox].
    intros t1 t2 _ _ Heq. apply app_inv_head in Heq. injection Heq as Heq.
    by apply terrain_file_name_inj.
  - apply sublist_length in Hsub'. by rewrite length_fmap in Hsub'.
  - destruct bbox as [[[west south] east] north]. apply standalone_get_tiles_for_bbox.
Qed.

Lemma download_terrain_tiles_list_witness :
  let curl := (λ (url : string) (p : path) (fs : gmap path node), (false, fs)) in
  ∃ fs' downloaded,
    download_terrain_tiles curl (7.38, 43.71, 7.45, 43.76)%R ["out"] 10 ∅
      = Ok (fs', downloaded) ∧
    NoDup downloaded.
Proof.
  intros curl.
  assert (Hcurl : ∀ url p fs,
            (∀ q, q ≠ p → (curl url p fs).2 !! q = fs !! q) ∧
            (fs !! p = None → (curl url p fs).2 !! p ≠ Some Dir)).
  { intros url p fs. simpl. split; [done|]. intros ->. done. }
  destruct (download_loop_spec curl ["out"; "terrain_tiles"] Hcurl
              (get_tiles_for_bbox (7.38, 43.71, 7.45, 43.76)%R 10)
              {[ ["out"] := Dir; ["out"; "terrain_tiles"] := Dir ]} []
              (NoDup_get_tiles_for_bbox _ _))
    as (fs' & new & Hloop & _).
  { apply stat_dir_prefixes. reflexivity. }
  assert (Hrun : download_terrain_tiles curl (7.38, 43.71, 7.45, 43.76)%R
                   ["out"] 10 ∅ = Ok (fs', new)).
  { unfold download_terrain_tiles.
    assert (mkdir_parents ∅ (["out"] // "terrain_tiles")
            = Ok ({[ ["out"] := Dir; ["out"; "terrain_tiles"] := Dir ]}
                    : gmap path node)) as -> by (vm_compute; reflexivity).
    exact Hloop. }
  exists fs', new. split; [exact Hrun|].
  exact (proj1 (proj2 (download_terrain_tiles_list curl (7.38, 43.71, 7.45, 43.76)%R
                         ["out"] 10 ∅ fs' new Hrun))).
Defined.



(** ** [int] reads back what [str] writes *)









(** ** The [--intervals] option *)









(** ** The descriptor: what can go wrong *)






(** ** The row flip on the rows of a zoom level *)

(** X17: [flip_y] maps the rows [0 .. 2^z - 1] of a zoom level onto
    themselves, reversing their order: a valid row stays valid, the bottom
    row becomes the top row and vice versa, a lower row becomes a higher one,
    and every valid row is the flip of exactly one valid row. *)
Theorem flip_y_rows (z : Z) :
  0 ≤ z →
  (∀ r, 0 ≤ r < 2 ^ z → 0 ≤ flip_y z r < 2 ^ z) ∧
  flip_y z 0 = 2 ^ z - 1 ∧ flip_y z (2 ^ z - 1) = 0 ∧
  (∀ r1 r2, r1 < r2 ↔ flip_y z r2 < flip_y z r1) ∧
  (∀ y, 0 ≤ y < 2 ^ z →
     ∃ r, 0 ≤ r < 2 ^ z ∧ flip_y z r = y ∧
          ∀ r', flip_y z r' = y → r' = r).
Proof.
  intros _. unfold flip_y. split_and!; try (intros; lia).
  intros y Hy. exists (2 ^ z - 1 - y). split_and!; intros; lia.
Qed.

Lemma flip_y_rows_witness :
  0 ≤ 5 ∧ 0 ≤ 3 < 2 ^ 5 ∧ 0 ≤ flip_y 5 3 < 2 ^ 5 ∧ flip_y 5 0 = 2 ^ 5 - 1.
Proof.
  assert (Hzoom : 0 ≤ 5) by lia.
  assert (Hrow : 0 ≤ 3 < 2 ^ 5) by (cbn; lia).
  split; [exact Hzoom|]. split; [exact Hrow|].
  destruct (flip_y_rows 5 Hzoom) as (Hrange & Htop & _).
  split; [exact (Hrange 3 Hrow)|exact Htop].
Defined.
